(** * TrafficAnalytics: the data-transformation layer

    A shallow embedding of the three transforms of
    [src/TrafficAnalytics.tsx]:

    - [generateColorFromString]  (category name to display colour),
    - [chartData]                (session records to per-category intervals),
    - [generateChartSeries]      (session records to weekday counts),

    together with the pieces of the JavaScript run time they rest on:
    32-bit shifts and masks, [Math.floor] on doubles, [toString(16)],
    [padStart], and plain objects used as string-keyed maps. *)

From Stdlib Require Import ZArith List String Ascii Bool Lia.
From Stdlib Require Import Sorting.Permutation Sorting.Sorted.
From Stdlib Require Import Floats.PrimFloat Floats.FloatOps Floats.SpecFloat.
From Stdlib Require Import Numbers.Cyclic.Int63.Uint63.
From Stdlib Require Import Strings.HexString.
Import ListNotations.

Local Open Scope string_scope.
Local Open Scope Z_scope.
Local Open Scope list_scope.

(* ================================================================= *)
(** ** JavaScript primitives *)

Module JS.

(** [ToInt32]: the value every bitwise operator first reduces its
    operands to. *)
Definition toInt32 (n : Z) : Z := (n + 2 ^ 31) mod 2 ^ 32 - 2 ^ 31.

(** [a << k], [a >> k] and [a & b] on numbers holding integers. *)
Definition shl (a k : Z) : Z := toInt32 (Z.shiftl (toInt32 a) k).
Definition sar (a k : Z) : Z := Z.shiftr (toInt32 a) k.
Definition band (a b : Z) : Z := Z.land (toInt32 a) (toInt32 b).

(** [a % b]: the sign follows the dividend. *)
Definition rem (a b : Z) : Z := Z.rem a b.

(** [str.charCodeAt(i)] for [i = 0 .. str.length - 1].  A [string] here
    is a sequence of code units below 256. *)
Definition charCodes (s : string) : list Z :=
  map (fun c => Z.of_N (N_of_ascii c)) (list_ascii_of_string s).

(** [Math.floor] of a finite double (no other argument occurs). *)
Definition floor (f : float) : Z :=
  match Prim2SF f with
  | S754_finite sign m e =>
      let mag := Z.pos m in
      match e with
      | Z.neg p =>
          if sign then - Z.shiftr (mag + 2 ^ Z.pos p - 1) (Z.pos p)
          else Z.shiftr mag (Z.pos p)
      | _ => (if sign then -1 else 1) * Z.shiftl mag e
      end
  | _ => 0
  end.

(** An integer of the range used here, as a double. *)
Definition toFloat (n : Z) : float := PrimFloat.of_uint63 (Uint63.of_Z n).

(** [n.toString(16)] for an integer [n >= 0]. *)
Definition toString16 (n : Z) : string :=
  match n with
  | Z.pos p => HexString.Raw.of_pos p EmptyString
  | _ => "0"
  end.

(** [s.padStart(target, pad)] for a one-character [pad]. *)
Definition padStart (target : nat) (pad : ascii) (s : string) : string :=
  (string_of_list_ascii (repeat pad (target - String.length s)) ++ s)%string.

End JS.

(* ================================================================= *)
(** ** Plain objects used as maps

    [{}] creates an ordinary object whose prototype is
    [Object.prototype].  Three facts of the language matter to
    [chartData]:

    - [o[k]] finds an own property first and an inherited one next;
    - a property created by assignment is appended to the own keys;
    - [Object.values] lists the own keys that are array indices first,
      in ascending numeric order, and the other keys after them, in
      creation order. *)

Module Obj.

Section Plain.
Context {V : Type}.

(** Own properties, in creation order. *)
Definition t : Type := list (string * V).

(** The property names every plain object inherits; each holds a
    function or an object, hence a truthy value. *)
Definition objectPrototype : list string :=
  [ "constructor"; "hasOwnProperty"; "isPrototypeOf";
    "propertyIsEnumerable"; "toLocaleString"; "toString"; "valueOf";
    "__defineGetter__"; "__defineSetter__"; "__lookupGetter__";
    "__lookupSetter__"; "__proto__" ].

Definition inherited (key : string) : bool :=
  existsb (String.eqb key) objectPrototype.

Fixpoint getOwn (o : t) (key : string) : option V :=
  match o with
  | [] => None
  | (k, v) :: rest => if (k =? key)%string then Some v else getOwn rest key
  end.

(** What [o[key]] evaluates to. *)
Inductive Value : Type :=
| Own (v : V)
| Inherited
| Undefined.

Definition get (o : t) (key : string) : Value :=
  match getOwn o key with
  | Some v => Own v
  | None => if inherited key then Inherited else Undefined
  end.

(** [o[key] = v] for a [key] that [o] neither owns nor inherits. *)
Definition define (o : t) (key : string) (v : V) : t := o ++ [(key, v)].

(** In-place mutation of the value stored under an own [key]. *)
Definition update (o : t) (key : string) (f : V -> V) : t :=
  map (fun kv => if (fst kv =? key)%string then (fst kv, f (snd kv)) else kv) o.

Definition digitValue (c : ascii) : option Z :=
  let n := Z.of_N (N_of_ascii c) in
  if (48 <=? n) && (n <=? 57) then Some (n - 48) else None.

Fixpoint decimal (acc : Z) (s : string) : option Z :=
  match s with
  | EmptyString => Some acc
  | String c rest =>
      match digitValue c with
      | Some d => decimal (10 * acc + d) rest
      | None => None
      end
  end.

(** A key is an array index when it is the canonical decimal numeral of
    an integer in [0, 2^32 - 2]. *)
Definition arrayIndex (key : string) : option Z :=
  match key with
  | EmptyString => None
  | String c rest =>
      if (c =? "0")%char && negb (rest =? EmptyString)%string then None
      else match decimal 0 key with
           | Some n => if n <=? 4294967294 then Some n else None
           | None => None
           end
  end.

Definition isArrayIndex (key : string) : bool :=
  match arrayIndex key with Some _ => true | None => false end.

Fixpoint insertIndexed (e : Z * (string * V)) (l : list (Z * (string * V)))
  : list (Z * (string * V)) :=
  match l with
  | [] => [e]
  | h :: rest => if fst e <? fst h then e :: l else h :: insertIndexed e rest
  end.

Definition indexed (o : t) : list (Z * (string * V)) :=
  flat_map (fun kv => match arrayIndex (fst kv) with
                      | Some i => [(i, kv)]
                      | None => []
                      end) o.

Definition named (o : t) : t :=
  filter (fun kv => negb (isArrayIndex (fst kv))) o.

(** The own properties in the order of [OrdinaryOwnPropertyKeys]. *)
Definition entries (o : t) : list (string * V) :=
  map snd (fold_right insertIndexed [] (indexed o)) ++ named o.

Definition keys (o : t) : list string := map fst (entries o).
Definition values (o : t) : list V := map snd (entries o).

End Plain.

Arguments t : clear implicits.
Arguments Value : clear implicits.

End Obj.

(* ================================================================= *)
(** ** ColorAssigner: [generateColorFromString] *)

Module Color.

(** The loop of lines 62-65.  [hash] is a JavaScript number: only
    [hash << 5] wraps to 32 bits, the subtraction and the addition do
    not.  The number stays an integer that a double holds exactly (see
    [hashStep_growth]), so it is an integer here. *)
Definition hashStep (hash c : Z) : Z := c + (JS.shl hash 5 - hash).

Definition hashOf (codes : list Z) : Z := fold_left hashStep codes 0.

Definition red (hash : Z) : Z := JS.rem (JS.band hash 255) 256.
Definition green (hash : Z) : Z := JS.rem (JS.band (JS.sar hash 8) 255) 256.
Definition blue (hash : Z) : Z := JS.rem (JS.band (JS.sar hash 16) 255) 256.

(** The double nearest to 1.2. *)
Definition brightnessFactor : float := 0x1.3333333333333p+0%float.

Definition brighten (channel : Z) : Z :=
  Z.min 255 (JS.floor (PrimFloat.mul (JS.toFloat channel) brightnessFactor)).

Definition hex2 (n : Z) : string := JS.padStart 2 "0"%char (JS.toString16 n).

Definition colorOfHash (hash : Z) : string :=
  ("#" ++ hex2 (brighten (red hash))
       ++ hex2 (brighten (green hash))
       ++ hex2 (brighten (blue hash)))%string.

Definition generateColorFromCodes (codes : list Z) : string :=
  colorOfHash (hashOf codes).

Definition generateColorFromString (str : string) : string :=
  generateColorFromCodes (JS.charCodes str).

End Color.

(* ================================================================= *)
(** ** Session records *)

(** [interface GameData]; [end_time] is [string | null]. *)
Record GameData : Type := mkGame {
  instance_name : string;
  category_name : string;
  start_time : string;
  end_time : option string
}.

(** Truthiness of a [string | null]: [null] and the empty string are falsy. *)
Definition truthy (s : option string) : bool :=
  match s with
  | Some e => negb (e =? EmptyString)%string
  | None => false
  end.

(* ================================================================= *)
(** ** A calendar for the examples

    [new Date(s).getTime()] and the local time zone belong to the host,
    and the transforms below take them as parameters.  [utcTime] is one
    such [getTime]: it reads [YYYY-MM-DDTHH:MM:SSZ] and gives the
    milliseconds since the epoch, or nothing for any other text. *)

Module Calendar.

(** Days from 1970-01-01 to the civil date [y-m-d]. *)
Definition daysFromCivil (y m d : Z) : Z :=
  let y' := if m <=? 2 then y - 1 else y in
  let era := y' / 400 in
  let yoe := y' - era * 400 in
  let mp := (m + 9) mod 12 in
  let doy := (153 * mp + 2) / 5 + d - 1 in
  let doe := yoe * 365 + yoe / 4 - yoe / 100 + doy in
  era * 146097 + doe - 719468.

Definition number (cs : list ascii) : option Z :=
  Obj.decimal 0 (string_of_list_ascii cs).

Definition inRange (lo hi : Z) (v : option Z) : option Z :=
  match v with
  | Some n => if (lo <=? n) && (n <=? hi) then Some n else None
  | None => None
  end.

Definition utcTime (s : string) : option Z :=
  match list_ascii_of_string s with
  | [y1; y2; y3; y4; s1; m1; m2; s2; d1; d2; s3; h1; h2; s4; i1; i2; s5; c1; c2; s6] =>
      if (String.eqb (string_of_list_ascii [s1; s2; s3; s4; s5; s6]) "--T::Z")
      then
        match number [y1; y2; y3; y4], inRange 1 12 (number [m1; m2]),
              inRange 1 31 (number [d1; d2]), inRange 0 23 (number [h1; h2]),
              inRange 0 59 (number [i1; i2]), inRange 0 59 (number [c1; c2]) with
        | Some y, Some m, Some d, Some h, Some i, Some c =>
            Some ((daysFromCivil y m d * 86400 + h * 3600 + i * 60 + c) * 1000)
        | _, _, _, _, _, _ => None
        end
      else None
  | _ => None
  end.

(** A host whose local time is UTC. *)
Definition utcZone (t : Z) : Z := 0.

End Calendar.

(* ================================================================= *)
(** ** TimelineBuilder: [chartData] *)

Module Timeline.

(** One entry of a series' [data]. *)
Record Point : Type := mkPoint {
  x : string;
  y : Z * Z;
  color : string
}.

Record Series : Type := mkSeries {
  name : string;
  data : list Point
}.

(** What [console.warn] receives at line 155: the instance and the two
    resolved times, [None] standing for [NaN]. *)
Inductive Diagnostic : Type :=
| InvalidTime (instance : string) (startTime endTime : option Z).

(** The part of the host that [chartData] reads or writes: how many
    times the clock has been read, and the console. *)
Record World : Type := mkWorld {
  ticks : nat;
  console : list Diagnostic
}.

Inductive Outcome (A : Type) : Type :=
| Returned (a : A)
| TypeError.
Arguments Returned {A} a.
Arguments TypeError {A}.

Definition Eff (A : Type) : Type := World -> Outcome A * World.

Definition ret {A} (a : A) : Eff A := fun w => (Returned a, w).

Definition bind {A B} (c : Eff A) (k : A -> Eff B) : Eff B :=
  fun w =>
    match c w with
    | (Returned a, w') => k a w'
    | (TypeError, w') => (TypeError, w')
    end.

Definition throw {A} : Eff A := fun w => (TypeError, w).

Notation "x <- c ;; k" := (bind c (fun x => k))
  (at level 61, c at next level, right associativity).

Definition console_warn (d : Diagnostic) : Eff unit :=
  fun w => (Returned tt, mkWorld (ticks w) (console w ++ [d])).

(** [array.reduce(f, init)]. *)
Fixpoint reduce {A B} (f : B -> A -> Eff B) (l : list A) (acc : B) : Eff B :=
  match l with
  | [] => ret acc
  | a :: rest => acc' <- f acc a ;; reduce f rest acc'
  end.

Definition neutralFallbackColor : string := "#CCCCCC".

(** [categoryColors[category] || '#CCCCCC'], for a [category] the
    accumulator owns (which no inherited name ever is). *)
Definition colorFor (categoryColors : Obj.t string) (category : string) : string :=
  match Obj.getOwn categoryColors category with
  | Some c => if (c =? EmptyString)%string then neutralFallbackColor else c
  | None => neutralFallbackColor
  end.

Section Host.

(** [new Date(s).getTime()], [None] for [NaN]. *)
Variable getTime : string -> option Z.
(** The successive readings of [Date.now()]. *)
Variable clock : nat -> Z.

Definition Date_now : Eff Z :=
  fun w => (Returned (clock (ticks w)), mkWorld (S (ticks w)) (console w)).

(** Line 140. *)
Definition resolveEnd (end_time : option string) : Eff (option Z) :=
  match end_time with
  | Some e => if truthy (Some e) then ret (getTime e)
              else now <- Date_now ;; ret (Some now)
  | None => now <- Date_now ;; ret (Some now)
  end.

(** The callback of [reduce], lines 135-158. *)
Definition reducer (categoryColors : Obj.t string)
  (acc : Obj.t Series) (game : GameData) : Eff (Obj.t Series) :=
  let category := category_name game in
  let instance := instance_name game in
  let startTime := getTime (start_time game) in
  endTime <- resolveEnd (end_time game) ;;
  let acc :=
    match Obj.get acc category with
    | Obj.Undefined => Obj.define acc category (mkSeries category [])
    | _ => acc
    end in
  match startTime, endTime with
  | Some s, Some e =>
      match Obj.get acc category with
      | Obj.Own _ =>
          ret (Obj.update acc category
                 (fun bucket =>
                    mkSeries (name bucket)
                      (data bucket ++
                         [mkPoint instance (s, e) (colorFor categoryColors category)])))
      | _ => throw
      end
  | _, _ =>
      _ <- console_warn (InvalidTime instance startTime endTime) ;;
      ret acc
  end.

Definition chartData (trafficData : list GameData) (categoryColors : Obj.t string)
  : Eff (list Series) :=
  acc <- reduce (reducer categoryColors) trafficData [] ;;
  ret (Obj.values acc).

End Host.

End Timeline.

(* ================================================================= *)
(** ** WeeklyAggregator: [generateChartSeries] *)

Module Weekly.

(** [Array(7).fill(0)] as it may grow under line 128: the seven indexed
    elements, and whether the property ["NaN"] has been created (its
    value is then [NaN] for good). *)
Record DayCounts : Type := mkCounts {
  slots : list Z;
  nanProperty : bool
}.

Record Series : Type := mkSeries {
  name : string;
  data : DayCounts
}.

Definition emptyWeek : DayCounts := mkCounts (repeat 0 7) false.

(** [categories.indexOf(x)]. *)
Fixpoint indexOfFrom (i : Z) (l : list string) (x : string) : Z :=
  match l with
  | [] => -1
  | h :: rest => if (h =? x)%string then i else indexOfFrom (i + 1) rest x
  end.

Definition indexOf (l : list string) (x : string) : Z := indexOfFrom 0 l x.

(** [day === 0 ? 6 : day - 1]; [NaN] stays [NaN]. *)
Definition adjustDay (day : option Z) : option Z :=
  match day with
  | Some d => if d =? 0 then Some 6 else Some (d - 1)
  | None => None
  end.

Fixpoint incrementAt (i : nat) (l : list Z) : list Z :=
  match l, i with
  | [], _ => []
  | v :: rest, O => (v + 1) :: rest
  | v :: rest, S j => v :: incrementAt j rest
  end.

(** [data[adjustedDay] += 1].  An index is always one of 0..6 (see
    [adjustDay_range]); with [NaN] the assignment creates or rewrites
    the property ["NaN"] and touches no element. *)
Definition increment (d : DayCounts) (adjustedDay : option Z) : DayCounts :=
  match adjustedDay with
  | Some i => mkCounts (incrementAt (Z.to_nat i) (slots d)) (nanProperty d)
  | None => mkCounts (slots d) true
  end.

Fixpoint updateAt {A} (i : nat) (f : A -> A) (l : list A) : list A :=
  match l, i with
  | [], _ => []
  | a :: rest, O => f a :: rest
  | a :: rest, S j => a :: updateAt j f rest
  end.

Definition msPerDay : Z := 86400000.

Section Host.

(** [new Date(s).getTime()], [None] for [NaN]. *)
Variable getTime : string -> option Z.
(** The offset of local time from UTC at an instant, in milliseconds. *)
Variable localTZA : Z -> Z.

(** [new Date(s).getDay()]: the weekday of the local time, Sunday = 0;
    [NaN] for an invalid date. *)
Definition getDay (s : string) : option Z :=
  match getTime s with
  | Some t => Some (((t + localTZA t) / msPerDay + 4) mod 7)
  | None => None
  end.

(** The callback of [forEach], lines 122-130. *)
Definition tally (categories : list string) (series : list Series) (game : GameData)
  : list Series :=
  let day := getDay (start_time game) in
  let categoryIndex := indexOf categories (category_name game) in
  let adjustedDay := adjustDay day in
  if negb (categoryIndex =? -1) then
    updateAt (Z.to_nat categoryIndex)
      (fun serie => mkSeries (name serie) (increment (data serie) adjustedDay))
      series
  else series.

Definition initialSeries (categories : list string) : list Series :=
  map (fun category => mkSeries category emptyWeek) categories.

Definition counted (categories : list string) (data : list GameData) : list Series :=
  fold_left (tally categories) data (initialSeries categories).

Definition nonEmpty (serie : Series) : bool :=
  existsb (fun value => 0 <? value) (slots (data serie)).

(** The value handed to [setChartSeries]. *)
Definition generateChartSeries (categories : list string) (data : list GameData)
  : list Series :=
  filter nonEmpty (counted categories data).

End Host.

End Weekly.

(* ================================================================= *)
(** ** Specification vocabulary for [generateChartSeries] *)

Module WeeklySpec.
Import Weekly.

(** A series as the chart reads it: its name and its seven counts. *)
Definition counts (serie : Series) : string * list Z :=
  (name serie, slots (data serie)).

Definition wellFormed (serie : Series) : Prop :=
  List.length (slots (data serie)) = 7%nat
  /\ Forall (fun v => 0 <= v) (slots (data serie)).

End WeeklySpec.

(* ================================================================= *)
(** ** Specification vocabulary for [chartData]

    These definitions are not in the source: they name what the
    theorems about [chartData] speak of. *)

Module TimelineSpec.
Import Timeline.

(** The names of a list in the order of their first occurrence. *)
Fixpoint firstOccurrences (l : list string) : list string :=
  match l with
  | [] => []
  | c :: rest => c :: filter (fun d => negb (d =? c)%string) (firstOccurrences rest)
  end.

(** The points filed under [category], in the order they were filed. *)
Definition bucket (category : string) (filed : list (string * Point)) : list Point :=
  map snd (filter (fun p => (fst p =? category)%string) filed).

(** One bucket per name, in first-occurrence order of [names]. *)
Definition group (names : list string) (filed : list (string * Point)) : Obj.t Series :=
  map (fun c => (c, mkSeries c (bucket c filed))) (firstOccurrences names).

Definition mem (c : string) (l : list string) : bool := existsb (String.eqb c) l.

(** No category of the batch is a property name of [Object.prototype]. *)
Definition plain (batch : list GameData) : Prop :=
  Forall (fun g => Obj.inherited (category_name g) = false) batch.

(** Each number is at most the next. *)
Fixpoint ascending (l : list Z) : Prop :=
  match l with
  | a :: (b :: _) as rest => a <= b /\ ascending rest
  | _ => True
  end.

Section Host.
Variable getTime : string -> option Z.
Variable clock : nat -> Z.

(** The record has no end and reads the clock. *)
Definition ongoing (g : GameData) : bool := negb (truthy (end_time g)).

(** The end time of a record when the clock has been read [k] times. *)
Definition endOf (k : nat) (g : GameData) : option Z :=
  match end_time g with
  | Some e => if truthy (Some e) then getTime e else Some (clock k)
  | None => Some (clock k)
  end.

(** Both times of the record resolve (whatever the clock reads). *)
Definition valid (g : GameData) : bool :=
  match getTime (start_time g), endOf 0 g with
  | Some _, Some _ => true
  | _, _ => false
  end.

Definition pointOf (categoryColors : Obj.t string) (k : nat) (g : GameData)
  : option Point :=
  match getTime (start_time g), endOf k g with
  | Some s, Some e =>
      Some (mkPoint (instance_name g) (s, e) (colorFor categoryColors (category_name g)))
  | _, _ => None
  end.

Definition tick (k : nat) (g : GameData) : nat := if ongoing g then S k else k.

(** The points of the valid records of a batch, each with its category,
    in batch order; [k] counts the clock readings so far. *)
Fixpoint filed (categoryColors : Obj.t string) (k : nat) (batch : list GameData)
  : list (string * Point) :=
  match batch with
  | [] => []
  | g :: rest =>
      match pointOf categoryColors k g with
      | Some p => (category_name g, p) :: filed categoryColors (tick k g) rest
      | None => filed categoryColors (tick k g) rest
      end
  end.

(** The diagnostics of the invalid records of a batch, in batch order. *)
Fixpoint warned (k : nat) (batch : list GameData) : list Diagnostic :=
  match batch with
  | [] => []
  | g :: rest =>
      match getTime (start_time g), endOf k g with
      | Some _, Some _ => warned (tick k g) rest
      | s, e => InvalidTime (instance_name g) s e :: warned (tick k g) rest
      end
  end.

Definition readings (batch : list GameData) : nat :=
  List.length (filter ongoing batch).

End Host.

End TimelineSpec.

(* ================================================================= *)
(** ** The colour map: [fetchCategories] and [weeklyChartOptions] *)

Module Categories.

(** [acc[key] = v] for a string [v] on a plain object.  An own property
    is rewritten in place; ["__proto__"] reaches the setter of
    [Object.prototype], which ignores a string; any other key, also one
    that names a writable member of [Object.prototype], becomes a new
    own property. *)
Definition assign (acc : Obj.t string) (key v : string) : Obj.t string :=
  match Obj.getOwn acc key with
  | Some _ => Obj.update acc key (fun _ => v)
  | None => if (key =? "__proto__")%string then acc else Obj.define acc key v
  end.

(** The [reduce] of lines 50-53. *)
Definition colors (fetchedCategories : list string) : Obj.t string :=
  fold_left
    (fun acc category => assign acc category (Color.generateColorFromString category))
    fetchedCategories [].


End Categories.

(* ================================================================= *)
(** ** Further specification vocabulary *)

Module CategoriesSpec.


End CategoriesSpec.

Module ColorSpec.




End ColorSpec.

Module WeeklyCount.
Import Weekly.

Definition sum (l : list Z) : Z := fold_right Z.add 0 l.

(** All the counts of all the series. *)
Definition total (series : list Series) : Z :=
  sum (map (fun serie => sum (slots (data serie))) series).

(** The count of slot [j] of a series. *)
Definition slot (serie : Series) (j : nat) : Z := nth j (slots (data serie)) 0.

Section Host.
Variable getTime : string -> option Z.
Variable localTZA : Z -> Z.

(** The record is counted: its category is listed and its start parses. *)
Definition counts (categories : list string) (g : GameData) : bool :=
  negb (indexOf categories (category_name g) =? -1)
  && match getTime (start_time g) with Some _ => true | None => false end.

(** The record is counted in slot [j] of the series at index [i]. *)
Definition lands (categories : list string) (i j : nat) (g : GameData) : bool :=
  (indexOf categories (category_name g) =? Z.of_nat i)
  && match adjustDay (getDay getTime localTZA (start_time g)) with
     | Some a => a =? Z.of_nat j
     | None => false
     end.

(** The record is of category [c] and starts on the weekday of slot [j]
    (Monday = 0). *)
Definition fallsOn (c : string) (j : nat) (g : GameData) : bool :=
  (category_name g =? c)%string
  && match adjustDay (getDay getTime localTZA (start_time g)) with
     | Some a => a =? Z.of_nat j
     | None => false
     end.

(** The record sets the ["NaN"] property of the series at index [i]. *)
Definition strays (categories : list string) (i : nat) (g : GameData) : bool :=
  (indexOf categories (category_name g) =? Z.of_nat i)
  && match getTime (start_time g) with Some _ => false | None => true end.

End Host.

End WeeklyCount.

Module TimelineMore.
Import Timeline.

Definition instanceOf (d : Diagnostic) : string :=
  match d with InvalidTime instance _ _ => instance end.

(** The intervals the output files under a category. *)
Definition intervalsOf (category : string) (out : list Series) : list Point :=
  flat_map (fun serie => if (name serie =? category)%string then data serie else []) out.

Section Host.
Variable getTime : string -> option Z.
Variable clock : nat -> Z.

(** A valid record whose category names a member of [Object.prototype]. *)
Definition fatal (g : GameData) : bool :=
  Obj.inherited (category_name g) && TimelineSpec.valid getTime clock g.

(** No record of the batch is fatal. *)
Definition safe (batch : list GameData) : Prop :=
  Forall (fun g => fatal g = false) batch.

End Host.

(** The category can become a key of the accumulator. *)
Definition plainName (g : GameData) : bool := negb (Obj.inherited (category_name g)).

End TimelineMore.

(* ================================================================= *)
(** ** Sample hosts and records *)

Module Sample.

(** A clock that reads 2027-01-15T08:00:00Z and advances by one
    millisecond at each reading. *)
Definition clockAt (n : nat) : Z := 1800000000000 + Z.of_nat n.

(** The same clock on a host that has read it five times already. *)
Definition clockBehind (n : nat) : Z := 1799999999995 + Z.of_nat n.

Definition fresh : Timeline.World := Timeline.mkWorld 0 [].

(** 2024-01-03 was a Wednesday, 2024-01-07 a Sunday. *)
Definition wednesday : GameData :=
  mkGame "arena-1" "Combat" "2024-01-03T10:00:00Z" (Some "2024-01-03T11:30:00Z").
Definition sunday : GameData :=
  mkGame "arena-2" "Combat" "2024-01-07T18:00:00Z" None.
Definition chess : GameData :=
  mkGame "board-1" "Chess" "2024-01-04T09:00:00Z" (Some "2024-01-04T09:45:00Z").
Definition garbled : GameData :=
  mkGame "arena-3" "Combat" "yesterday" None.
Definition ghost : GameData :=
  mkGame "crypt-1" "Ghost" "not a date" None.
Definition scheduled : GameData :=
  mkGame "arena-4" "Combat" "2999-01-01T00:00:00Z" None.
Definition room2 : GameData :=
  mkGame "table-7" "2" "2024-01-03T10:00:00Z" (Some "2024-01-03T11:00:00Z").
Definition room1 : GameData :=
  mkGame "table-3" "1" "2024-01-03T12:00:00Z" (Some "2024-01-03T13:00:00Z").
Definition builder : GameData :=
  mkGame "lab-1" "constructor" "2024-01-03T10:00:00Z" (Some "2024-01-03T11:00:00Z").

End Sample.

(* ================================================================= *)
(** ** More sample records *)

Module MoreSample.

(** An invalid record whose category names a member of
    [Object.prototype]. *)
Definition hidden : GameData :=
  mkGame "lab-2" "toString" "soon" None.

Definition listed : list string := ["Combat"; "Chess"].

End MoreSample.

(* ================================================================= *)
(** * Theorems *)

(* ================================================================= *)
(** ** ColorAssigner *)

Module ColorFacts.
Import Color.

(** Every channel is a byte, also for a negative hash. *)
Lemma band_255_range (h : Z) : 0 <= JS.band h 255 < 256.
Proof.
  unfold JS.band.
  replace (JS.toInt32 255) with (Z.ones 8) by reflexivity.
  rewrite Z.land_ones by lia.
  apply Z.mod_pos_bound. reflexivity.
Qed.

Lemma channel_range (h : Z) :
  0 <= red h < 256 /\ 0 <= green h < 256 /\ 0 <= blue h < 256.
Proof.
  unfold red, green, blue, JS.rem.
  repeat split;
    match goal with
    | |- context [Z.rem (JS.band ?a 255) 256] =>
        pose proof (band_255_range a);
        rewrite (Z.rem_small (JS.band a 255) 256) by lia; lia
    end.
Qed.

(** The bytes, for the proofs by enumeration. *)
Lemma byte_cases (n : Z) :
  0 <= n < 256 -> In n (map Z.of_nat (seq 0 256)).
Proof.
  intros H. apply in_map_iff. exists (Z.to_nat n).
  split; [lia | apply in_seq; lia].
Qed.

(** On a byte, [Math.floor(channel * 1.2)] on doubles is the integer
    part of [6 * channel / 5]: the rounding of the product never
    crosses an integer. *)
Lemma brighten_exact (n : Z) :
  0 <= n < 256 -> brighten n = Z.min 255 (6 * n / 5).
Proof.
  intros H. apply byte_cases in H. apply Z.eqb_eq.
  revert n H. apply forallb_forall. vm_compute. reflexivity.
Qed.

Lemma hex2_brighten_length (n : Z) :
  0 <= n < 256 -> String.length (hex2 (brighten n)) = 2%nat.
Proof.
  intros H. apply byte_cases in H. apply Nat.eqb_eq.
  revert n H. apply forallb_forall. vm_compute. reflexivity.
Qed.

Lemma string_length_app (a b : string) :
  String.length (a ++ b)%string = (String.length a + String.length b)%nat.
Proof. induction a as [|c a IH]; simpl; [reflexivity | now rewrite IH]. Qed.

(** [generateColorFromString] is total and always gives [#] and six
    hexadecimal digits. *)
Lemma generateColorFromCodes_length (codes : list Z) :
  String.length (generateColorFromCodes codes) = 7%nat.
Proof.
  unfold generateColorFromCodes, colorOfHash.
  destruct (channel_range (hashOf codes)) as (Hr & Hg & Hb).
  rewrite !string_length_app, !hex2_brighten_length by assumption. reflexivity.
Qed.

(** One more character moves the hash by less than 2^31 + 2^16, so it
    stays an exact double for every string of realistic length. *)
Lemma hashStep_growth (hash c : Z) :
  0 <= c < 65536 -> Z.abs (hashStep hash c) <= Z.abs hash + 2 ^ 31 + 65535.
Proof.
  intros Hc. unfold hashStep, JS.shl.
  set (v := Z.shiftl (JS.toInt32 hash) 5).
  assert (H : - 2 ^ 31 <= JS.toInt32 v < 2 ^ 31).
  { unfold JS.toInt32. pose proof (Z.mod_pos_bound (v + 2 ^ 31) (2 ^ 32) eq_refl). lia. }
  lia.
Qed.

(** C3: [generateColorFromString] on the two worked examples: the
    empty string hashes to 0 and gives [#000000]; ["A"] hashes to 65,
    its channels are 65, 0, 0, the red channel brightens to 78, and
    the colour is [#4e0000]. *)
Theorem generateColorFromString_worked_examples :
  hashOf (JS.charCodes EmptyString) = 0
  /\ generateColorFromString EmptyString = "#000000"
  /\ hashOf (JS.charCodes "A") = 65
  /\ (red 65, green 65, blue 65) = (65, 0, 0)
  /\ brighten 65 = 78
  /\ generateColorFromString "A" = "#4e0000".
Proof. repeat split; vm_compute; reflexivity. Qed.

End ColorFacts.

(* ================================================================= *)
(** ** WeeklyAggregator *)

Module WeeklyFacts.
Import Weekly WeeklySpec.

Section Host.
Variable getTime : string -> option Z.
Variable localTZA : Z -> Z.

#[local] Abbreviation getDay := (Weekly.getDay getTime localTZA).
#[local] Abbreviation tally := (Weekly.tally getTime localTZA).
#[local] Abbreviation counted := (Weekly.counted getTime localTZA).
#[local] Abbreviation generateChartSeries :=
  (Weekly.generateChartSeries getTime localTZA).

(** *** [indexOf] *)

Lemma indexOfFrom_absent (l : list string) (x : string) (i : Z) :
  ~ In x l -> indexOfFrom i l x = -1.
Proof.
  revert i. induction l as [|h rest IH]; intros i Hin; simpl.
  - reflexivity.
  - destruct (String.eqb_spec h x) as [->|Hne].
    + exfalso. apply Hin. now left.
    + apply IH. intros H. apply Hin. now right.
Qed.

Lemma indexOfFrom_present (l : list string) (x : string) (i : Z) :
  In x l ->
  exists n, indexOfFrom i l x = i + Z.of_nat n
            /\ nth_error l n = Some x
            /\ ~ In x (firstn n l).
Proof.
  revert i. induction l as [|h rest IH]; intros i Hin; simpl.
  - contradiction.
  - destruct (String.eqb_spec h x) as [->|Hne].
    + exists 0%nat. simpl. repeat split; [lia | tauto].
    + destruct Hin as [->|Hin]; [congruence|].
      destruct (IH (i + 1) Hin) as (n & E & Hn & Hf).
      exists (S n). simpl. repeat split; [lia | assumption |].
      intros [?|?]; [congruence | contradiction].
Qed.

(** *** Weekdays *)

Lemma getDay_range (s : string) (day : Z) :
  getDay s = Some day -> 0 <= day <= 6.
Proof.
  unfold Weekly.getDay. destruct (getTime s) as [t|]; [|discriminate].
  intros [= <-].
  pose proof (Z.mod_pos_bound ((t + localTZA t) / msPerDay + 4) 7 eq_refl). lia.
Qed.

Lemma adjustDay_range (s : string) (a : Z) :
  adjustDay (getDay s) = Some a -> 0 <= a <= 6.
Proof.
  destruct (getDay s) as [d|] eqn:E; [|discriminate].
  apply getDay_range in E. simpl.
  destruct (Z.eqb_spec d 0); intros [= <-]; lia.
Qed.

(** *** In-place updates *)

Lemma updateAt_map {A B} (g : A -> B) (f : A -> A) (i : nat) (l : list A) :
  (forall a, g (f a) = g a) -> map g (updateAt i f l) = map g l.
Proof.
  intros Hf. revert i. induction l as [|a rest IH]; intros [|i]; simpl;
    rewrite ?Hf, ?IH; reflexivity.
Qed.

Lemma updateAt_Forall {A} (P : A -> Prop) (f : A -> A) (i : nat) (l : list A) :
  (forall a, P a -> P (f a)) -> Forall P l -> Forall P (updateAt i f l).
Proof.
  intros Hf H. revert i. induction H as [|a rest Ha Hr IH]; intros [|i]; simpl;
    constructor; auto.
Qed.

Lemma incrementAt_length (i : nat) (l : list Z) :
  List.length (incrementAt i l) = List.length l.
Proof.
  revert i. induction l as [|v rest IH]; intros [|i]; simpl; rewrite ?IH; reflexivity.
Qed.

Lemma incrementAt_nonneg (i : nat) (l : list Z) :
  Forall (fun v => 0 <= v) l -> Forall (fun v => 0 <= v) (incrementAt i l).
Proof.
  intros H. revert i. induction H as [|v rest Hv Hr IH]; intros [|i]; simpl;
    constructor; auto; lia.
Qed.

(** *** What [tally] keeps *)

Lemma tally_names (categories : list string) (series : list Series) (game : GameData) :
  map name (tally categories series game) = map name series.
Proof.
  unfold Weekly.tally.
  destruct (negb _); [|reflexivity].
  apply updateAt_map. reflexivity.
Qed.

Lemma tally_wellFormed (categories : list string) (series : list Series) (game : GameData) :
  Forall wellFormed series -> Forall wellFormed (tally categories series game).
Proof.
  intros H. unfold Weekly.tally.
  destruct (negb _); [|assumption].
  apply updateAt_Forall; [|assumption].
  intros serie [Hlen Hpos]. unfold wellFormed, increment. simpl.
  destruct (adjustDay _); simpl.
  - split; [now rewrite incrementAt_length | now apply incrementAt_nonneg].
  - now split.
Qed.

Lemma fold_tally_names (categories : list string) (batch : list GameData)
  (series : list Series) :
  map name (fold_left (tally categories) batch series) = map name series.
Proof.
  revert series. induction batch as [|g rest IH]; intros series; simpl.
  - reflexivity.
  - rewrite IH. apply tally_names.
Qed.

Lemma fold_tally_wellFormed (categories : list string) (batch : list GameData)
  (series : list Series) :
  Forall wellFormed series ->
  Forall wellFormed (fold_left (tally categories) batch series).
Proof.
  revert series. induction batch as [|g rest IH]; intros series H; simpl.
  - assumption.
  - apply IH. now apply tally_wellFormed.
Qed.

Lemma initialSeries_names (categories : list string) :
  map name (initialSeries categories) = categories.
Proof.
  unfold initialSeries. rewrite map_map. simpl. apply map_id.
Qed.

Lemma initialSeries_wellFormed (categories : list string) :
  Forall wellFormed (initialSeries categories).
Proof.
  unfold initialSeries. apply Forall_forall. intros serie Hin.
  apply in_map_iff in Hin. destruct Hin as (c & <- & _).
  split; simpl; [reflexivity | repeat constructor; lia].
Qed.

Lemma tally_unknown (categories : list string) (series : list Series) (game : GameData) :
  ~ In (category_name game) categories -> tally categories series game = series.
Proof.
  intros Hin. unfold Weekly.tally, indexOf.
  now rewrite indexOfFrom_absent.
Qed.

(** With an unparseable start the only change is the ["NaN"] property. *)
Lemma tally_invalid_counts (categories : list string) (series : list Series)
  (game : GameData) :
  getTime (start_time game) = None ->
  map counts (tally categories series game) = map counts series.
Proof.
  intros Hnan. unfold Weekly.tally, Weekly.getDay. rewrite Hnan. simpl.
  destruct (negb _); [|reflexivity].
  apply updateAt_map. reflexivity.
Qed.

(** [tally] and the final filter read a series only through [counts]. *)
Lemma updateAt_counts (i : nat) (a : option Z) (s1 s2 : list Series) :
  map counts s1 = map counts s2 ->
  map counts (updateAt i (fun serie => mkSeries (name serie) (increment (data serie) a)) s1)
  = map counts (updateAt i (fun serie => mkSeries (name serie) (increment (data serie) a)) s2).
Proof.
  revert i s2. induction s1 as [|x1 r1 IH]; intros i [|x2 r2] H; try discriminate.
  - reflexivity.
  - simpl in H. unfold counts at 1 3 in H. injection H as Hn Hs Hr.
    destruct i as [|i]; simpl.
    + f_equal; [|assumption].
      unfold counts. simpl. destruct a; simpl; congruence.
    + f_equal; [unfold counts; congruence | now apply IH].
Qed.

Lemma tally_counts (categories : list string) (s1 s2 : list Series) (game : GameData) :
  map counts s1 = map counts s2 ->
  map counts (tally categories s1 game) = map counts (tally categories s2 game).
Proof.
  intros H. unfold Weekly.tally.
  destruct (negb _); [|assumption].
  now apply updateAt_counts.
Qed.

Lemma fold_tally_counts (categories : list string) (batch : list GameData)
  (s1 s2 : list Series) :
  map counts s1 = map counts s2 ->
  map counts (fold_left (tally categories) batch s1)
  = map counts (fold_left (tally categories) batch s2).
Proof.
  revert s1 s2. induction batch as [|g rest IH]; intros s1 s2 H; simpl.
  - assumption.
  - apply IH. now apply tally_counts.
Qed.

Lemma filter_nonEmpty_counts (s1 s2 : list Series) :
  map counts s1 = map counts s2 ->
  map counts (filter nonEmpty s1) = map counts (filter nonEmpty s2).
Proof.
  revert s2. induction s1 as [|x1 r1 IH]; intros [|x2 r2] H; try discriminate.
  - reflexivity.
  - simpl in H. unfold counts at 1 3 in H. injection H as Hn Hs Hr. simpl.
    assert (E : nonEmpty x1 = nonEmpty x2).
    { unfold nonEmpty. now rewrite Hs. }
    rewrite E. destruct (nonEmpty x2); simpl;
      [f_equal; [unfold counts; congruence|] |]; now apply IH.
Qed.

Lemma filter_nonEmpty_initial (categories : list string) :
  filter nonEmpty (initialSeries categories) = [].
Proof. induction categories as [|c rest IH]; simpl; [reflexivity | exact IH]. Qed.

Lemma filter_nonEmpty_updateAt (categories : list string) (n : nat) (c : string)
  (f : Series -> Series) :
  nth_error categories n = Some c ->
  nonEmpty (f (mkSeries c emptyWeek)) = true ->
  filter nonEmpty (updateAt n f (initialSeries categories)) = [f (mkSeries c emptyWeek)].
Proof.
  revert n. induction categories as [|h rest IH]; intros [|n] Hn Hf; simpl in *;
    try discriminate.
  - injection Hn as ->. rewrite Hf. f_equal. apply filter_nonEmpty_initial.
  - now apply IH.
Qed.

Lemma slot_cases (a : Z) :
  0 <= a <= 6 -> a = 0 \/ a = 1 \/ a = 2 \/ a = 3 \/ a = 4 \/ a = 5 \/ a = 6.
Proof. lia. Qed.

(** *** Properties of the specification *)

(** C1: the weekday that [getDay] reports (Sunday = 0 .. Saturday = 6)
    is remapped to the slot [day - 1], and Sunday to slot 6: a record
    of a known category adds one to that slot of its series and to
    nothing else; alone in the batch, a Wednesday record of ["Combat"]
    with [categories = ["Combat"]] gives [[0,0,1,0,0,0,0]], and a Sunday
    record gives a one in slot 6 and a zero in slot 0. *)
Theorem generateChartSeries_weekday_slot
  (categories : list string) (game : GameData) (day : Z) :
  In (category_name game) categories ->
  getDay (start_time game) = Some day ->
  let slot := if day =? 0 then 6 else day - 1 in
  0 <= slot <= 6
  /\ (slot = 6 <-> day = 0)
  /\ (forall series,
        tally categories series game
        = updateAt (Z.to_nat (indexOf categories (category_name game)))
            (fun serie =>
               mkSeries (name serie)
                 (mkCounts (incrementAt (Z.to_nat slot) (slots (data serie)))
                    (nanProperty (data serie))))
            series)
  /\ generateChartSeries categories [game]
     = [mkSeries (category_name game)
          (mkCounts (incrementAt (Z.to_nat slot) (repeat 0 7)) false)]
  /\ (day = 3 -> categories = ["Combat"] ->
      generateChartSeries categories [game]
      = [mkSeries "Combat" (mkCounts [0; 0; 1; 0; 0; 0; 0] false)])
  /\ (day = 0 ->
      generateChartSeries categories [game]
      = [mkSeries (category_name game) (mkCounts [0; 0; 0; 0; 0; 0; 1] false)]).
Proof.
  intros Hin Hday slot.
  assert (Hadj : adjustDay (getDay (start_time game)) = Some slot).
  { rewrite Hday. unfold slot. simpl. now destruct (day =? 0). }
  assert (Hslot : 0 <= slot <= 6) by (eapply adjustDay_range; exact Hadj).
  assert (Hrange := getDay_range _ _ Hday).
  destruct (indexOfFrom_present categories _ 0 Hin) as (n & Hidx & Hnth & _).
  assert (Hfound : negb (indexOf categories (category_name game) =? -1) = true).
  { unfold indexOf. rewrite Hidx. apply negb_true_iff, Z.eqb_neq. lia. }
  assert (Hstep : forall series,
             tally categories series game
             = updateAt (Z.to_nat (indexOf categories (category_name game)))
                 (fun serie =>
                    mkSeries (name serie)
                      (mkCounts (incrementAt (Z.to_nat slot) (slots (data serie)))
                         (nanProperty (data serie))))
                 series).
  { intros series. unfold Weekly.tally. rewrite Hfound, Hadj. reflexivity. }
  assert (Hout : generateChartSeries categories [game]
                 = [mkSeries (category_name game)
                      (mkCounts (incrementAt (Z.to_nat slot) (repeat 0 7)) false)]).
  { unfold Weekly.generateChartSeries, Weekly.counted. simpl fold_left.
    rewrite Hstep. unfold indexOf. rewrite Hidx.
    replace (Z.to_nat (0 + Z.of_nat n)) with n by lia.
    rewrite (filter_nonEmpty_updateAt categories n (category_name game)); auto.
    destruct (slot_cases slot Hslot) as [E|[E|[E|[E|[E|[E|E]]]]]];
      rewrite E; reflexivity. }
  split; [exact Hslot|].
  split.
  { unfold slot. destruct (Z.eqb_spec day 0); split; intros; lia. }
  split; [exact Hstep|].
  split; [exact Hout|].
  split.
  - intros E3 Hc. rewrite Hout. subst categories.
    destruct Hin as [<-|[]]. unfold slot. rewrite E3. reflexivity.
  - intros E0. rewrite Hout. unfold slot. rewrite E0. reflexivity.
Qed.

(** C5: the output is the list of series, in the order of
    [categories], with exactly those removed whose seven counts are all
    zero; every emitted series has seven counts, none negative and at
    least one positive. *)
Theorem generateChartSeries_nonempty_in_order
  (categories : list string) (batch : list GameData) :
  map name (counted categories batch) = categories
  /\ generateChartSeries categories batch = filter nonEmpty (counted categories batch)
  /\ (forall serie, In serie (counted categories batch) ->
        (In serie (generateChartSeries categories batch)
         <-> exists v, In v (slots (data serie)) /\ 0 < v))
  /\ (forall serie, In serie (generateChartSeries categories batch) ->
        List.length (slots (data serie)) = 7%nat
        /\ Forall (fun v => 0 <= v) (slots (data serie))
        /\ exists v, In v (slots (data serie)) /\ 0 < v).
Proof.
  assert (Hne : forall serie,
             nonEmpty serie = true <-> exists v, In v (slots (data serie)) /\ 0 < v).
  { intros serie. unfold nonEmpty. rewrite existsb_exists.
    split; intros (v & Hv & Hp); exists v; split; auto; now apply Z.ltb_lt. }
  split.
  { unfold Weekly.counted. rewrite fold_tally_names. apply initialSeries_names. }
  split; [reflexivity|].
  split.
  - intros serie Hin. unfold Weekly.generateChartSeries.
    rewrite filter_In, Hne. tauto.
  - intros serie Hin. unfold Weekly.generateChartSeries in Hin.
    apply filter_In in Hin. destruct Hin as [Hin Hpos].
    assert (Hwf : Forall wellFormed (counted categories batch)).
    { apply fold_tally_wellFormed, initialSeries_wellFormed. }
    rewrite Forall_forall in Hwf. destruct (Hwf _ Hin) as [Hlen Hnn].
    repeat split; auto. now apply Hne.
Qed.

(** C7: a record whose category is not in [categories] changes no
    series: the callback returns the series as they were, and the
    output is that of the batch without the record. *)
Theorem generateChartSeries_ignores_unknown_category
  (categories : list string) (pre post : list GameData) (game : GameData) :
  ~ In (category_name game) categories ->
  (forall series, tally categories series game = series)
  /\ generateChartSeries categories (pre ++ game :: post)
     = generateChartSeries categories (pre ++ post).
Proof.
  intros Hin. split.
  - intros series. now apply tally_unknown.
  - unfold Weekly.generateChartSeries, Weekly.counted.
    rewrite !fold_left_app. simpl. now rewrite tally_unknown.
Qed.

(** C10: a record whose start time does not parse leaves the seven
    counts of every series as they were, also when its category is
    known; the names and counts of the output are those of the batch
    without the record. *)
Theorem generateChartSeries_unparseable_start
  (categories : list string) (pre post : list GameData) (game : GameData) :
  getTime (start_time game) = None ->
  (forall series, map counts (tally categories series game) = map counts series)
  /\ map counts (generateChartSeries categories (pre ++ game :: post))
     = map counts (generateChartSeries categories (pre ++ post)).
Proof.
  intros Hnan. split.
  - intros series. now apply tally_invalid_counts.
  - unfold Weekly.generateChartSeries, Weekly.counted.
    apply filter_nonEmpty_counts.
    rewrite !fold_left_app. simpl.
    apply fold_tally_counts. now apply tally_invalid_counts.
Qed.

End Host.

End WeeklyFacts.

(* ================================================================= *)
(** ** Plain objects *)

Module ObjFacts.
Import TimelineSpec.

Section Plain.
Context {V : Type}.
Implicit Types (o : Obj.t V) (e : Z * (string * V)).

Lemma filter_split_perm {A} (f : A -> bool) (l : list A) :
  Permutation (filter f l ++ filter (fun a => negb (f a)) l) l.
Proof.
  induction l as [|a rest IH]; simpl; [constructor|].
  destruct (f a); simpl.
  - now constructor.
  - symmetry. apply Permutation_cons_app. now symmetry.
Qed.

Lemma insertIndexed_perm e (l : list (Z * (string * V))) :
  Permutation (Obj.insertIndexed e l) (e :: l).
Proof.
  induction l as [|h rest IH]; simpl; [constructor; constructor|].
  destruct (fst e <? fst h); [reflexivity|].
  rewrite IH. constructor.
Qed.

Lemma sorted_perm (l : list (Z * (string * V))) :
  Permutation (fold_right Obj.insertIndexed [] l) l.
Proof.
  induction l as [|h rest IH]; simpl; [constructor|].
  rewrite insertIndexed_perm. now constructor.
Qed.

Lemma insertIndexed_ascending e (l : list (Z * (string * V))) :
  ascending (map fst l) -> ascending (map fst (Obj.insertIndexed e l)).
Proof.
  induction l as [|h rest IH]; simpl; [trivial|].
  intros Hasc. destruct (Z.ltb_spec (fst e) (fst h)) as [Hlt|Hge]; simpl.
  - split; [lia | exact Hasc].
  - destruct rest as [|h' rest]; simpl in *.
    + split; [lia | trivial].
    + destruct Hasc as [Hh Hrest]. specialize (IH Hrest).
      destruct (fst e <? fst h'); simpl in *; split; auto; lia.
Qed.

Lemma sorted_ascending (l : list (Z * (string * V))) :
  ascending (map fst (fold_right Obj.insertIndexed [] l)).
Proof.
  induction l as [|h rest IH]; simpl; [trivial|].
  now apply insertIndexed_ascending.
Qed.

Lemma indexed_keys o :
  map (fun e => fst (snd e)) (Obj.indexed o) = filter Obj.isArrayIndex (map fst o).
Proof.
  unfold Obj.indexed, Obj.isArrayIndex.
  induction o as [|[k v] rest IH]; simpl; [reflexivity|].
  destruct (Obj.arrayIndex k); simpl; now rewrite IH.
Qed.

Lemma indexed_index o :
  Forall (fun e => Obj.arrayIndex (fst (snd e)) = Some (fst e)) (Obj.indexed o).
Proof.
  unfold Obj.indexed.
  induction o as [|[k v] rest IH]; simpl; [constructor|].
  destruct (Obj.arrayIndex k) eqn:E; simpl; [constructor|]; assumption.
Qed.

Lemma indexed_values o :
  map snd (Obj.indexed o) = filter (fun kv => Obj.isArrayIndex (fst kv)) o.
Proof.
  unfold Obj.indexed, Obj.isArrayIndex.
  induction o as [|[k v] rest IH]; simpl; [reflexivity|].
  destruct (Obj.arrayIndex k); simpl; now rewrite IH.
Qed.

Lemma named_keys o :
  map fst (Obj.named o) = filter (fun k => negb (Obj.isArrayIndex k)) (map fst o).
Proof.
  unfold Obj.named.
  induction o as [|[k v] rest IH]; simpl; [reflexivity|].
  destruct (Obj.isArrayIndex k); simpl; now rewrite IH.
Qed.

(** [Object.values] loses and adds nothing. *)
Lemma entries_perm o : Permutation (Obj.entries o) o.
Proof.
  unfold Obj.entries, Obj.named.
  rewrite (Permutation_map snd (sorted_perm (Obj.indexed o))), indexed_values.
  apply filter_split_perm.
Qed.

(** The order of the keys: array indices in ascending order, then the
    other keys in creation order. *)
Lemma keys_order o :
  exists (idx : list string) (zs : list Z),
    Obj.keys o = idx ++ filter (fun k => negb (Obj.isArrayIndex k)) (map fst o)
    /\ Permutation idx (filter Obj.isArrayIndex (map fst o))
    /\ map Obj.arrayIndex idx = map Some zs
    /\ ascending zs.
Proof.
  set (sorted := fold_right Obj.insertIndexed [] (Obj.indexed o)).
  exists (map (fun e => fst (snd e)) sorted), (map fst sorted).
  split; [|split; [|split]].
  - unfold Obj.keys, Obj.entries. fold sorted.
    now rewrite map_app, map_map, named_keys.
  - rewrite <- indexed_keys. apply Permutation_map, sorted_perm.
  - assert (H : Forall (fun e => Obj.arrayIndex (fst (snd e)) = Some (fst e)) sorted).
    { eapply Permutation_Forall; [symmetry; apply sorted_perm | apply indexed_index]. }
    induction H as [|e rest He Hr IH]; simpl; [reflexivity|].
    now rewrite He, IH.
  - apply sorted_ascending.
Qed.

Lemma entries_named o :
  Forall (fun kv => Obj.isArrayIndex (fst kv) = false) o -> Obj.entries o = o.
Proof.
  intros H. unfold Obj.entries.
  assert (Hi : Obj.indexed o = []).
  { unfold Obj.indexed, Obj.isArrayIndex in *.
    induction H as [|[k v] rest Hk Hr IH]; simpl in *; [reflexivity|].
    destruct (Obj.arrayIndex k); [discriminate | exact IH]. }
  assert (Hn : Obj.named o = o).
  { clear Hi. unfold Obj.named.
    induction H as [|[k v] rest Hk Hr IH]; simpl in *; [reflexivity|].
    now rewrite Hk, IH. }
  now rewrite Hi, Hn.
Qed.

End Plain.

End ObjFacts.

(* ================================================================= *)
(** ** TimelineBuilder *)

Module TimelineFacts.
Import Timeline TimelineSpec.

(** *** Names in first-occurrence order *)

Lemma firstOccurrences_In (l : list string) (c : string) :
  In c (firstOccurrences l) <-> In c l.
Proof.
  induction l as [|h rest IH]; simpl; [tauto|].
  rewrite filter_In, IH, negb_true_iff.
  destruct (String.eqb_spec c h) as [->|Hne].
  - intuition.
  - split; [intuition | intros [->|H]; [congruence | auto]].
Qed.

Lemma firstOccurrences_NoDup (l : list string) : NoDup (firstOccurrences l).
Proof.
  induction l as [|h rest IH]; simpl; constructor.
  - rewrite filter_In, String.eqb_refl. intros [_ H]. discriminate.
  - now apply NoDup_filter.
Qed.

Lemma mem_In (c : string) (l : list string) : mem c l = true <-> In c l.
Proof.
  unfold mem. rewrite existsb_exists. split.
  - intros (d & Hd & E). apply String.eqb_eq in E. now subst.
  - intros H. exists c. split; [assumption | apply String.eqb_refl].
Qed.

Lemma mem_firstOccurrences (c : string) (l : list string) :
  mem c (firstOccurrences l) = mem c l.
Proof.
  apply eq_true_iff_eq. rewrite !mem_In. apply firstOccurrences_In.
Qed.

Lemma firstOccurrences_snoc (l : list string) (c : string) :
  firstOccurrences (l ++ [c])
  = firstOccurrences l ++ (if mem c l then [] else [c]).
Proof.
  induction l as [|h rest IH]; simpl; [reflexivity|].
  rewrite IH, filter_app. f_equal. f_equal.
  destruct (mem c rest); simpl.
  - now rewrite orb_true_r.
  - rewrite orb_false_r. now destruct (c =? h)%string.
Qed.

(** *** The accumulator as a grouping *)

Lemma getOwn_group (names : list string) (fl : list (string * Point)) (c : string) :
  Obj.getOwn (group names fl) c
  = if mem c names then Some (mkSeries c (bucket c fl)) else None.
Proof.
  unfold group. rewrite <- (mem_firstOccurrences c names).
  induction (firstOccurrences names) as [|h rest IH]; simpl; [reflexivity|].
  rewrite (String.eqb_sym c h).
  destruct (String.eqb_spec h c) as [->|Hne]; simpl; [reflexivity | exact IH].
Qed.

Lemma bucket_app (c : string) (fl1 fl2 : list (string * Point)) :
  bucket c (fl1 ++ fl2) = bucket c fl1 ++ bucket c fl2.
Proof. unfold bucket. now rewrite filter_app, map_app. Qed.

Lemma bucket_absent (c : string) (fl : list (string * Point)) :
  (forall p, ~ In (c, p) fl) -> bucket c fl = [].
Proof.
  unfold bucket. induction fl as [|[d p] rest IH]; intros H; simpl; [reflexivity|].
  destruct (String.eqb_spec d c) as [->|Hne].
  - exfalso. apply (H p). now left.
  - apply IH. intros q Hq. apply (H q). now right.
Qed.

Lemma update_group (names : list string) (fl : list (string * Point))
  (c : string) (p : Point) :
  Obj.update (group names fl) c
    (fun b => mkSeries (name b) (data b ++ [p]))
  = group names (fl ++ [(c, p)]).
Proof.
  unfold group, Obj.update. rewrite map_map. apply map_ext. intros d. simpl.
  rewrite bucket_app. unfold bucket. simpl.
  rewrite (String.eqb_sym c d).
  destruct (d =? c)%string; simpl; [reflexivity | now rewrite app_nil_r].
Qed.

Lemma group_snoc (names : list string) (fl : list (string * Point)) (c : string) :
  (forall d p, In (d, p) fl -> In d names) ->
  group (names ++ [c]) fl
  = if mem c names then group names fl
    else Obj.define (group names fl) c (mkSeries c []).
Proof.
  intros Hfl. unfold group, Obj.define. rewrite firstOccurrences_snoc.
  destruct (mem c names) eqn:E; simpl.
  - now rewrite app_nil_r.
  - rewrite map_app. simpl. rewrite (bucket_absent c fl); [reflexivity|].
    intros p Hp. apply Hfl in Hp. apply mem_In in Hp. congruence.
Qed.

(** *** What [Object.values] returns for a grouping *)

Lemma group_keys (names : list string) (fl : list (string * Point)) :
  map fst (group names fl) = firstOccurrences names.
Proof. unfold group. rewrite map_map. simpl. apply map_id. Qed.

Lemma group_named (names : list string) (fl : list (string * Point)) :
  Forall (fun kv => name (snd kv) = fst kv /\ data (snd kv) = bucket (fst kv) fl
                    /\ In (fst kv) names)
    (group names fl).
Proof.
  unfold group. apply Forall_forall. intros kv Hin.
  apply in_map_iff in Hin. destruct Hin as (c & <- & Hc). simpl.
  repeat split. now apply firstOccurrences_In.
Qed.

Lemma values_group_keys (names : list string) (fl : list (string * Point)) :
  map name (Obj.values (group names fl)) = Obj.keys (group names fl).
Proof.
  unfold Obj.values, Obj.keys.
  assert (H : Forall (fun kv : string * Series => name (snd kv) = fst kv)
                (Obj.entries (group names fl))).
  { eapply Permutation_Forall; [symmetry; apply ObjFacts.entries_perm|].
    eapply Forall_impl; [|apply group_named]. simpl. tauto. }
  rewrite map_map. induction H as [|kv rest Hkv Hr IH]; simpl; congruence.
Qed.

Lemma values_group_In (names : list string) (fl : list (string * Point)) (s : Series) :
  In s (Obj.values (group names fl))
  <-> exists c, In c names /\ s = mkSeries c (bucket c fl).
Proof.
  unfold Obj.values.
  rewrite (Permutation_in' (eq_refl s)
             (Permutation_map snd (ObjFacts.entries_perm (group names fl)))).
  unfold group. rewrite map_map. simpl. rewrite in_map_iff.
  split; intros (c & H1 & H2).
  - exists c. split; [now apply firstOccurrences_In | now symmetry].
  - exists c. split; [now symmetry | now apply firstOccurrences_In].
Qed.

Lemma total_perm {A B} (f : A -> list B) (l l' : list A) :
  Permutation l l' ->
  List.length (List.concat (map f l)) = List.length (List.concat (map f l')).
Proof.
  induction 1; simpl; rewrite ?length_app in *; lia.
Qed.

Lemma total_buckets_nil (l : list string) :
  List.length (List.concat (map (fun c => bucket c []) l)) = 0%nat.
Proof. induction l; simpl; auto. Qed.

Lemma total_buckets_cons (l : list string) (d : string) (p : Point)
  (fl : list (string * Point)) :
  List.length (List.concat (map (fun c => bucket c ((d, p) :: fl)) l))
  = (count_occ string_dec l d
     + List.length (List.concat (map (fun c => bucket c fl) l)))%nat.
Proof.
  induction l as [|c rest IH]; simpl; [reflexivity|].
  rewrite !length_app, IH. unfold bucket at 1. simpl.
  destruct (string_dec c d) as [E|E]; destruct (String.eqb_spec d c) as [E'|E'];
    try congruence; simpl; unfold bucket; lia.
Qed.

Lemma total_buckets (names : list string) (fl : list (string * Point)) :
  (forall d p, In (d, p) fl -> In d names) ->
  List.length (List.concat (map (fun c => bucket c fl) (firstOccurrences names)))
  = List.length fl.
Proof.
  induction fl as [|[d p] rest IH]; intros Hfl.
  - apply total_buckets_nil.
  - rewrite total_buckets_cons, IH by (intros; eapply Hfl; right; eassumption).
    assert (Hin : In d (firstOccurrences names)).
    { apply firstOccurrences_In. eapply Hfl. now left. }
    pose proof (proj1 (NoDup_count_occ string_dec _)
                  (firstOccurrences_NoDup names) d) as Hle.
    apply (count_occ_In string_dec) in Hin. simpl. lia.
Qed.

Lemma total_group (names : list string) (fl : list (string * Point)) :
  (forall d p, In (d, p) fl -> In d names) ->
  List.length (List.concat (map data (Obj.values (group names fl)))) = List.length fl.
Proof.
  intros Hfl. unfold Obj.values.
  rewrite (total_perm data _ _
             (Permutation_map snd (ObjFacts.entries_perm (group names fl)))).
  unfold group. rewrite !map_map. simpl. now apply total_buckets.
Qed.

Section Host.
Variable getTime : string -> option Z.
Variable clock : nat -> Z.

#[local] Abbreviation resolveEnd := (Timeline.resolveEnd getTime clock).
#[local] Abbreviation reducer := (Timeline.reducer getTime clock).
#[local] Abbreviation chartData := (Timeline.chartData getTime clock).
#[local] Abbreviation endOf := (TimelineSpec.endOf getTime clock).
#[local] Abbreviation valid := (TimelineSpec.valid getTime clock).
#[local] Abbreviation pointOf := (TimelineSpec.pointOf getTime clock).
#[local] Abbreviation filed := (TimelineSpec.filed getTime clock).
#[local] Abbreviation warned := (TimelineSpec.warned getTime clock).

(** *** Running the effects *)

Lemma reduce_app {A B} (f : B -> A -> Eff B) (l1 l2 : list A) (acc : B) (w : World) :
  reduce f (l1 ++ l2) acc w
  = match reduce f l1 acc w with
    | (Returned acc', w') => reduce f l2 acc' w'
    | (TypeError, w') => (TypeError, w')
    end.
Proof.
  revert acc w. induction l1 as [|a rest IH]; intros acc w; simpl.
  - reflexivity.
  - unfold bind. destruct (f acc a w) as [[acc'|] w']; [apply IH | reflexivity].
Qed.

Lemma resolveEnd_run (g : GameData) (w : World) :
  resolveEnd (end_time g) w
  = (Returned (endOf (ticks w) g), mkWorld (tick (ticks w) g) (console w)).
Proof.
  unfold Timeline.resolveEnd, TimelineSpec.endOf, tick, ongoing.
  destruct w as [k log]. destruct (end_time g) as [e|]; simpl; [|reflexivity].
  destruct (e =? EmptyString)%string; reflexivity.
Qed.

(** One step of [reduce] on an accumulator that is a grouping. *)
Lemma reducer_group (colors : Obj.t string) (names : list string)
  (fl : list (string * Point)) (g : GameData) (w : World) :
  Obj.inherited (category_name g) = false ->
  (forall d p, In (d, p) fl -> In d names) ->
  reducer colors (group names fl) g w
  = (Returned (group (names ++ [category_name g])
                 (fl ++ filed colors (ticks w) [g])),
     mkWorld (tick (ticks w) g) (console w ++ warned (ticks w) [g])).
Proof.
  intros Hinh Hfl. unfold Timeline.reducer, bind at 1.
  rewrite resolveEnd_run.
  assert (Hacc :
    match Obj.get (group names fl) (category_name g) with
    | Obj.Undefined =>
        Obj.define (group names fl) (category_name g) (mkSeries (category_name g) [])
    | _ => group names fl
    end = group (names ++ [category_name g]) fl).
  { rewrite group_snoc by assumption. unfold Obj.get.
    rewrite getOwn_group, Hinh. now destruct (mem (category_name g) names). }
  rewrite Hacc. clear Hacc.
  assert (Hget : exists b, Obj.get (group (names ++ [category_name g]) fl) (category_name g)
                           = Obj.Own b).
  { unfold Obj.get. rewrite getOwn_group.
    assert (E : mem (category_name g) (names ++ [category_name g]) = true).
    { apply mem_In, in_or_app. right. now left. }
    rewrite E. eauto. }
  destruct Hget as (b & Hget).
  simpl filed. simpl warned. unfold TimelineSpec.pointOf.
  destruct (getTime (start_time g)) as [s|];
    destruct (endOf (ticks w) g) as [e|]; simpl.
  - rewrite Hget. unfold ret. now rewrite update_group, app_nil_r.
  - unfold bind, console_warn, ret. simpl. now rewrite app_nil_r.
  - unfold bind, console_warn, ret. simpl. now rewrite app_nil_r.
  - unfold bind, console_warn, ret. simpl. now rewrite app_nil_r.
Qed.

(** *** The valid records of a batch *)

Lemma readings_cons (g : GameData) (batch : list GameData) (k : nat) :
  (tick k g + readings batch = k + readings (g :: batch))%nat.
Proof. unfold tick, readings. simpl. destruct (ongoing g); simpl; lia. Qed.

Lemma readings_app (l1 l2 : list GameData) :
  readings (l1 ++ l2) = (readings l1 + readings l2)%nat.
Proof. unfold readings. now rewrite filter_app, length_app. Qed.

Lemma filed_app (colors : Obj.t string) (l1 l2 : list GameData) (k : nat) :
  filed colors k (l1 ++ l2)
  = filed colors k l1 ++ filed colors (k + readings l1) l2.
Proof.
  revert k. induction l1 as [|g rest IH]; intros k; simpl.
  - now rewrite Nat.add_0_r.
  - rewrite IH, readings_cons. now destruct (pointOf colors k g).
Qed.

Lemma warned_app (l1 l2 : list GameData) (k : nat) :
  warned k (l1 ++ l2) = warned k l1 ++ warned (k + readings l1) l2.
Proof.
  revert k. induction l1 as [|g rest IH]; intros k; simpl.
  - now rewrite Nat.add_0_r.
  - rewrite IH, readings_cons.
    now destruct (getTime (start_time g)), (endOf k g).
Qed.

Lemma valid_pointOf (colors : Obj.t string) (k : nat) (g : GameData) :
  valid g = match pointOf colors k g with Some _ => true | None => false end.
Proof.
  unfold TimelineSpec.valid, TimelineSpec.pointOf, TimelineSpec.endOf.
  destruct (getTime (start_time g)); [|reflexivity].
  destruct (end_time g) as [e|]; [|reflexivity].
  destruct (truthy (Some e)); [|reflexivity].
  now destruct (getTime e).
Qed.

Lemma pointOf_fields (colors : Obj.t string) (k : nat) (g : GameData) (p : Point) :
  pointOf colors k g = Some p ->
  x p = instance_name g
  /\ getTime (start_time g) = Some (fst (y p))
  /\ endOf k g = Some (snd (y p))
  /\ color p = colorFor colors (category_name g).
Proof.
  unfold TimelineSpec.pointOf.
  destruct (getTime (start_time g)); [|discriminate].
  destruct (endOf k g); [|discriminate].
  intros [= <-]. simpl. auto.
Qed.

Lemma filed_In (colors : Obj.t string) (batch : list GameData) (k : nat)
  (d : string) (p : Point) :
  In (d, p) (filed colors k batch) ->
  exists g k', In g batch /\ category_name g = d /\ pointOf colors k' g = Some p.
Proof.
  revert k. induction batch as [|g rest IH]; intros k; simpl; [contradiction|].
  destruct (pointOf colors k g) as [q|] eqn:E.
  - intros [[= <- <-]|H].
    + exists g, k. auto.
    + destruct (IH _ H) as (g' & k' & ? & ? & ?). exists g', k'. auto.
  - intros H. destruct (IH _ H) as (g' & k' & ? & ? & ?). exists g', k'. auto.
Qed.

Lemma filed_names (colors : Obj.t string) (batch : list GameData) (k : nat)
  (d : string) (p : Point) :
  In (d, p) (filed colors k batch) -> In d (map category_name batch).
Proof.
  intros H. destruct (filed_In _ _ _ _ _ H) as (g & _ & Hg & <- & _).
  now apply in_map.
Qed.

Lemma filed_length (colors : Obj.t string) (batch : list GameData) (k : nat) :
  List.length (filed colors k batch) = List.length (filter valid batch).
Proof.
  revert k. induction batch as [|g rest IH]; intros k; simpl; [reflexivity|].
  rewrite (valid_pointOf colors k g).
  destruct (pointOf colors k g); simpl; now rewrite IH.
Qed.

Lemma warned_length (batch : list GameData) (k : nat) :
  List.length (warned k batch)
  = List.length (filter (fun g => negb (valid g)) batch).
Proof.
  revert k. induction batch as [|g rest IH]; intros k; simpl; [reflexivity|].
  rewrite (valid_pointOf [] k g). unfold TimelineSpec.pointOf.
  destruct (getTime (start_time g)), (endOf k g); simpl; now rewrite IH.
Qed.

(** *** The accumulator after a batch *)

Lemma reduce_group (colors : Obj.t string) (batch : list GameData) (w : World) :
  plain batch ->
  reduce (reducer colors) batch [] w
  = (Returned (group (map category_name batch) (filed colors (ticks w) batch)),
     mkWorld (ticks w + readings batch) (console w ++ warned (ticks w) batch)).
Proof.
  induction batch as [|g batch IH] using rev_ind; intros Hplain.
  - destruct w as [k log]. simpl. unfold ret, readings. simpl.
    now rewrite Nat.add_0_r, app_nil_r.
  - apply Forall_app in Hplain. destruct Hplain as [Hbatch Hg].
    inversion Hg as [|? ? Hinh _]; subst.
    rewrite reduce_app, IH by assumption. simpl reduce. unfold bind.
    rewrite reducer_group; [|assumption|apply filed_names].
    unfold ret. simpl ticks. simpl console.
    rewrite map_app, filed_app, warned_app, readings_app, <- app_assoc. simpl map.
    f_equal. f_equal.
    pose proof (readings_cons g [] (ticks w + readings batch)) as E.
    unfold readings at 2 in E. simpl in E. lia.
Qed.

Lemma chartData_run (colors : Obj.t string) (batch : list GameData) (w : World) :
  plain batch ->
  chartData batch colors w
  = (Returned (Obj.values (group (map category_name batch)
                             (filed colors (ticks w) batch))),
     mkWorld (ticks w + readings batch) (console w ++ warned (ticks w) batch)).
Proof.
  intros Hplain. unfold Timeline.chartData, bind.
  now rewrite reduce_group.
Qed.

Lemma bucket_In (c : string) (fl : list (string * Point)) (p : Point) :
  In p (bucket c fl) <-> In (c, p) fl.
Proof.
  unfold bucket. rewrite in_map_iff. split.
  - intros ([d q] & E & H). simpl in E. subst q.
    apply filter_In in H. destruct H as [H Hd]. simpl in Hd.
    apply String.eqb_eq in Hd. now subst.
  - intros H. exists (c, p). split; [reflexivity|].
    apply filter_In. split; [assumption | apply String.eqb_refl].
Qed.

(** *** Properties of the specification *)

(** C2, as amended: on a batch none of whose category names is a
    property name of [Object.prototype], [chartData] returns; every
    interval of the output stems from a valid record of its category,
    so an invalid record yields none; the intervals number as many as
    the valid records, and each invalid record logs one diagnostic; but
    a bucket is created at the first sight of ANY record of a category,
    valid or not: the keys of the output are exactly the categories of
    the batch, and a category all of whose records are invalid is
    present, with an empty interval list. *)
Theorem chartData_drops_invalid_keeps_bucket
  (colors : Obj.t string) (batch : list GameData) (w : World) :
  plain batch ->
  exists out w',
    chartData batch colors w = (Returned out, w')
    /\ (forall serie point, In serie out -> In point (data serie) ->
          exists g, In g batch /\ valid g = true
                    /\ category_name g = name serie
                    /\ x point = instance_name g
                    /\ getTime (start_time g) = Some (fst (y point)))
    /\ List.length (List.concat (map data out)) = List.length (filter valid batch)
    /\ List.length (console w')
       = (List.length (console w)
          + List.length (filter (fun g => negb (valid g)) batch))%nat
    /\ (forall c, In c (map name out) <-> In c (map category_name batch))
    /\ (forall serie, In serie out ->
          (forall g, In g batch -> category_name g = name serie -> valid g = false) ->
          data serie = []).
Proof.
  intros Hplain. eexists _, _. split; [now apply chartData_run|].
  set (names := map category_name batch).
  set (fl := filed colors (ticks w) batch).
  assert (Hfrom : forall serie point,
             In serie (Obj.values (group names fl)) -> In point (data serie) ->
             exists g, In g batch /\ valid g = true
                       /\ category_name g = name serie
                       /\ x point = instance_name g
                       /\ getTime (start_time g) = Some (fst (y point))).
  { intros serie point Hs Hp.
    apply values_group_In in Hs. destruct Hs as (c & _ & ->). simpl in *.
    apply bucket_In in Hp. destruct (filed_In _ _ _ _ _ Hp) as (g & k' & Hg & Hc & Hpt).
    exists g. rewrite (valid_pointOf colors k' g), Hpt.
    destruct (pointOf_fields _ _ _ _ Hpt) as (Hx & Hs & _). auto. }
  split; [exact Hfrom|].
  split.
  { rewrite total_group by apply filed_names. apply filed_length. }
  split.
  { simpl. now rewrite length_app, warned_length. }
  split.
  { intros c. rewrite values_group_keys. unfold Obj.keys.
    rewrite (Permutation_in' (eq_refl c)
               (Permutation_map fst (ObjFacts.entries_perm (group names fl)))).
    rewrite group_keys. apply firstOccurrences_In. }
  intros serie Hs Hinv.
  destruct (data serie) as [|point rest] eqn:E; [reflexivity|].
  destruct (Hfrom serie point Hs) as (g & Hg & Hv & Hc & _).
  { rewrite E. now left. }
  rewrite (Hinv g Hg Hc) in Hv. discriminate.
Qed.

(** C4, as amended: on a batch none of whose category names is a
    property name of [Object.prototype], the interval list of each
    category holds the intervals of its valid records in batch order;
    the keys of the output are the category names that are array
    indices (canonical numerals below 2^32 - 1) in ascending numeric
    order, followed by the other names in the order of their first
    occurrence in the batch.  When no category name is an array index,
    the keys are in first-occurrence order. *)
Theorem chartData_interval_and_key_order
  (colors : Obj.t string) (batch : list GameData) (w : World) :
  plain batch ->
  exists out w',
    chartData batch colors w = (Returned out, w')
    /\ (forall serie, In serie out ->
          data serie = bucket (name serie) (filed colors (ticks w) batch))
    /\ (exists (idx : list string) (zs : list Z),
          map name out
          = idx ++ filter (fun c => negb (Obj.isArrayIndex c))
                     (firstOccurrences (map category_name batch))
          /\ Permutation idx
               (filter Obj.isArrayIndex (firstOccurrences (map category_name batch)))
          /\ map Obj.arrayIndex idx = map Some zs
          /\ ascending zs)
    /\ (Forall (fun g => Obj.isArrayIndex (category_name g) = false) batch ->
        map name out = firstOccurrences (map category_name batch)).
Proof.
  intros Hplain. eexists _, _. split; [now apply chartData_run|].
  set (names := map category_name batch).
  set (fl := filed colors (ticks w) batch).
  split.
  { intros serie Hs. apply values_group_In in Hs. now destruct Hs as (c & _ & ->). }
  split.
  { rewrite values_group_keys.
    destruct (ObjFacts.keys_order (group names fl)) as (idx & zs & H).
    rewrite group_keys in H. now exists idx, zs. }
  intros Hnamed. rewrite values_group_keys. unfold Obj.keys.
  rewrite ObjFacts.entries_named; [apply group_keys|].
  apply Forall_forall. intros kv Hkv.
  pose proof (group_named names fl) as Hg. rewrite Forall_forall in Hg.
  destruct (Hg kv Hkv) as (_ & _ & Hin).
  apply in_map_iff in Hin. destruct Hin as (g & <- & Hgin).
  rewrite Forall_forall in Hnamed. now apply Hnamed.
Qed.

(** C6, as amended: on a batch none of whose category names is a
    property name of [Object.prototype], a record with a parseable
    start and a [null] end yields, under its category, an interval that
    starts at the parsed start and ends at the reading of [Date.now()]
    taken while the record is processed; the end is at or after the
    start exactly when the start is not later than that reading. *)
Theorem chartData_ongoing_session
  (colors : Obj.t string) (pre post : list GameData) (game : GameData)
  (w : World) (start : Z) :
  plain (pre ++ game :: post) ->
  getTime (start_time game) = Some start ->
  end_time game = None ->
  let now := clock (ticks w + readings pre) in
  exists out w' serie point,
    chartData (pre ++ game :: post) colors w = (Returned out, w')
    /\ (ticks w <= ticks w + readings pre < ticks w')%nat
    /\ In serie out
    /\ name serie = category_name game
    /\ In point (data serie)
    /\ x point = instance_name game
    /\ y point = (start, now)
    /\ color point = colorFor colors (category_name game)
    /\ (fst (y point) <= snd (y point) <-> start <= now).
Proof.
  intros Hplain Hstart Hend now.
  set (batch := pre ++ game :: post).
  set (point := mkPoint (instance_name game) (start, now)
                  (colorFor colors (category_name game))).
  assert (Hpt : pointOf colors (ticks w + readings pre) game = Some point).
  { unfold TimelineSpec.pointOf, TimelineSpec.endOf. now rewrite Hstart, Hend. }
  assert (Hin : In (category_name game, point) (filed colors (ticks w) batch)).
  { unfold batch. rewrite filed_app. apply in_or_app. right.
    simpl. rewrite Hpt. now left. }
  eexists _, _, (mkSeries (category_name game)
                   (bucket (category_name game) (filed colors (ticks w) batch))), point.
  split; [now apply chartData_run|].
  split.
  { simpl ticks. unfold batch. rewrite readings_app.
    assert (E : readings (game :: post) = S (readings post)).
    { unfold readings. simpl. unfold ongoing at 1. now rewrite Hend. }
    rewrite E. lia. }
  split.
  { apply values_group_In. exists (category_name game). split; [|reflexivity].
    unfold batch. rewrite map_app. apply in_or_app. right. now left. }
  split; [reflexivity|].
  split; [now apply bucket_In|].
  simpl. repeat split; auto.
Qed.

(** A valid record whose category is not in the colour map gets the
    fallback colour, provided no category of the batch is a property
    name of [Object.prototype]. *)
Lemma chartData_fallback_color
  (colors : Obj.t string) (pre post : list GameData) (game : GameData) (w : World) :
  plain (pre ++ game :: post) ->
  valid game = true ->
  Obj.getOwn colors (category_name game) = None ->
  exists out w' serie point,
    chartData (pre ++ game :: post) colors w = (Returned out, w')
    /\ In serie out
    /\ name serie = category_name game
    /\ In point (data serie)
    /\ x point = instance_name game
    /\ color point = neutralFallbackColor.
Proof.
  intros Hplain Hvalid Hmiss.
  set (batch := pre ++ game :: post).
  rewrite (valid_pointOf colors (ticks w + readings pre) game) in Hvalid.
  destruct (pointOf colors (ticks w + readings pre) game) as [point|] eqn:Hpt;
    [|discriminate].
  destruct (pointOf_fields _ _ _ _ Hpt) as (Hx & _ & _ & Hc).
  assert (Hin : In (category_name game, point) (filed colors (ticks w) batch)).
  { unfold batch. rewrite filed_app. apply in_or_app. right.
    simpl. rewrite Hpt. now left. }
  eexists _, _, (mkSeries (category_name game)
                   (bucket (category_name game) (filed colors (ticks w) batch))), point.
  split; [now apply chartData_run|].
  split.
  { apply values_group_In. exists (category_name game). split; [|reflexivity].
    unfold batch. rewrite map_app. apply in_or_app. right. now left. }
  split; [reflexivity|].
  split; [now apply bucket_In|].
  split; [assumption|].
  rewrite Hc. unfold colorFor. now rewrite Hmiss.
Qed.

(** The first valid record whose category is a property name of
    [Object.prototype] makes [chartData] throw: the accumulator never
    owns such a key, [acc[category]] is the inherited member, and
    [.data.push] fails on it. *)
Lemma chartData_inherited_throws
  (colors : Obj.t string) (pre post : list GameData) (game : GameData) (w : World) :
  plain pre ->
  Obj.inherited (category_name game) = true ->
  valid game = true ->
  fst (chartData (pre ++ game :: post) colors w) = TypeError.
Proof.
  intros Hplain Hinh Hvalid.
  unfold Timeline.chartData, bind.
  rewrite reduce_app, reduce_group by assumption.
  simpl reduce. unfold bind at 1. unfold Timeline.reducer at 1. unfold bind at 1.
  rewrite resolveEnd_run. cbn [ticks console].
  set (names := map category_name pre).
  set (fl := filed colors (ticks w) pre).
  assert (Hget : Obj.get (group names fl) (category_name game) = Obj.Inherited).
  { unfold Obj.get. rewrite getOwn_group, Hinh.
    destruct (mem (category_name game) names) eqn:E; [|reflexivity].
    apply mem_In in E. unfold names in E. apply in_map_iff in E.
    destruct E as (g & Hc & Hg). unfold plain in Hplain.
    rewrite Forall_forall in Hplain. apply Hplain in Hg. congruence. }
  rewrite Hget.
  rewrite (valid_pointOf colors (ticks w + readings pre) game) in Hvalid.
  unfold TimelineSpec.pointOf in Hvalid.
  destruct (getTime (start_time game)); [|discriminate].
  destruct (endOf (ticks w + readings pre) game); [|discriminate].
  rewrite Hget. reflexivity.
Qed.

End Host.

(** *** Determinism *)

Section Clocks.
Variable getTime : string -> option Z.
Variables clock1 clock2 : nat -> Z.

Lemma endOf_agree (g : GameData) (k1 k2 : nat) :
  (ongoing g = true -> clock1 k1 = clock2 k2) ->
  TimelineSpec.endOf getTime clock1 k1 g = TimelineSpec.endOf getTime clock2 k2 g.
Proof.
  unfold TimelineSpec.endOf, ongoing.
  destruct (end_time g) as [e|]; simpl.
  - destruct (e =? EmptyString)%string; simpl; [|reflexivity].
    intros H. now rewrite H.
  - intros H. now rewrite H.
Qed.

(** One step: the same result, and as many clock readings. *)
Lemma reducer_agree (colors : Obj.t string) (acc : Obj.t Series) (g : GameData)
  (w1 w2 : World) :
  (ongoing g = true -> clock1 (ticks w1) = clock2 (ticks w2)) ->
  fst (Timeline.reducer getTime clock1 colors acc g w1)
  = fst (Timeline.reducer getTime clock2 colors acc g w2)
  /\ ticks (snd (Timeline.reducer getTime clock1 colors acc g w1)) = tick (ticks w1) g
  /\ ticks (snd (Timeline.reducer getTime clock2 colors acc g w2)) = tick (ticks w2) g.
Proof.
  intros Hclock. unfold Timeline.reducer, bind.
  rewrite !resolveEnd_run.
  rewrite (endOf_agree g (ticks w1) (ticks w2) Hclock).
  destruct (getTime (start_time g)), (TimelineSpec.endOf getTime clock2 (ticks w2) g);
    simpl;
    try (destruct (Obj.get _ (category_name g)); simpl; auto).
  all: auto.
Qed.

Lemma reduce_agree (colors : Obj.t string) (batch : list GameData)
  (acc : Obj.t Series) (w1 w2 : World) :
  (forall i, (i < readings batch)%nat -> clock1 (ticks w1 + i) = clock2 (ticks w2 + i)) ->
  fst (reduce (Timeline.reducer getTime clock1 colors) batch acc w1)
  = fst (reduce (Timeline.reducer getTime clock2 colors) batch acc w2).
Proof.
  revert acc w1 w2. induction batch as [|g rest IH]; intros acc w1 w2 Hclock.
  - reflexivity.
  - simpl. unfold bind.
    assert (Hnow : ongoing g = true -> clock1 (ticks w1) = clock2 (ticks w2)).
    { intros Hg. specialize (Hclock 0%nat). rewrite !Nat.add_0_r in Hclock.
      apply Hclock. unfold readings. simpl. rewrite Hg. simpl. lia. }
    destruct (reducer_agree colors acc g w1 w2 Hnow) as (Hout & Ht1 & Ht2).
    destruct (Timeline.reducer getTime clock1 colors acc g w1) as [[a1|] w1'];
      destruct (Timeline.reducer getTime clock2 colors acc g w2) as [[a2|] w2'];
      simpl in *; try discriminate; [|reflexivity].
    injection Hout as <-. apply IH. intros i Hi.
    rewrite Ht1, Ht2. unfold tick.
    destruct (ongoing g) eqn:Hg.
    + specialize (Hclock (S i)). rewrite !Nat.add_succ_r in Hclock.
      simpl. apply Hclock. unfold readings in *. simpl. rewrite Hg. simpl. lia.
    + apply Hclock. unfold readings in *. simpl. now rewrite Hg.
Qed.

(** C9, as amended: [generateColorFromString] is a function of its
    argument alone, and what [chartData] returns (its series, or the
    exception) is a function of the batch, the colour map and the
    readings of [Date.now()] it takes, one per record whose end is
    [null] or empty: two calls that see the same readings agree,
    whatever happened before and whatever the console holds; with no
    such record the result does not depend on the clock at all. *)
Theorem assign_and_build_determined
  (colors : Obj.t string) (batch : list GameData) (w1 w2 : World) :
  (forall i, (i < readings batch)%nat -> clock1 (ticks w1 + i) = clock2 (ticks w2 + i)) ->
  (forall s c1 c2,
      c1 = Color.generateColorFromString s ->
      c2 = Color.generateColorFromString s -> c1 = c2)
  /\ fst (Timeline.chartData getTime clock1 batch colors w1)
     = fst (Timeline.chartData getTime clock2 batch colors w2)
  /\ (readings batch = 0%nat ->
      forall w1' w2',
        fst (Timeline.chartData getTime clock1 batch colors w1')
        = fst (Timeline.chartData getTime clock2 batch colors w2')).
Proof.
  intros Hclock.
  assert (Hrun : forall u1 u2,
             (forall i, (i < readings batch)%nat ->
                        clock1 (ticks u1 + i) = clock2 (ticks u2 + i)) ->
             fst (Timeline.chartData getTime clock1 batch colors u1)
             = fst (Timeline.chartData getTime clock2 batch colors u2)).
  { intros u1 u2 H. unfold Timeline.chartData, bind.
    pose proof (reduce_agree colors batch [] u1 u2 H) as E.
    destruct (reduce (Timeline.reducer getTime clock1 colors) batch [] u1) as [[a1|] u1'];
      destruct (reduce (Timeline.reducer getTime clock2 colors) batch [] u2) as [[a2|] u2'];
      simpl in *; try discriminate; [|reflexivity].
    now injection E as <-. }
  split; [intros; congruence|].
  split; [now apply Hrun|].
  intros Hnone w1' w2'. apply Hrun. intros i Hi. lia.
Qed.

End Clocks.

End TimelineFacts.

(* ================================================================= *)
(** ** The theorems at work, and where the specification departs *)

Module Examples.
Import Sample.

#[local] Abbreviation getDay := (Weekly.getDay Calendar.utcTime Calendar.utcZone).
#[local] Abbreviation generateChartSeries :=
  (Weekly.generateChartSeries Calendar.utcTime Calendar.utcZone).
#[local] Abbreviation chartData := (Timeline.chartData Calendar.utcTime clockAt).
#[local] Abbreviation valid := (TimelineSpec.valid Calendar.utcTime clockAt).

Lemma plain_sample :
  TimelineSpec.plain [wednesday; ghost; room2; sunday; room1; scheduled].
Proof. repeat constructor. Qed.

(** A Wednesday record of ["Combat"] alone in the batch. *)
Lemma generateChartSeries_weekday_slot_witness :
  In (category_name wednesday) ["Combat"]
  /\ getDay (start_time wednesday) = Some 3
  /\ generateChartSeries ["Combat"] [wednesday]
     = [Weekly.mkSeries "Combat" (Weekly.mkCounts [0; 0; 1; 0; 0; 0; 0] false)].
Proof.
  assert (Hin : In (category_name wednesday) ["Combat"]) by (simpl; auto).
  assert (Hday : getDay (start_time wednesday) = Some 3) by reflexivity.
  split; [exact Hin|]. split; [exact Hday|].
  pose proof (WeeklyFacts.generateChartSeries_weekday_slot
                Calendar.utcTime Calendar.utcZone ["Combat"] wednesday 3 Hin Hday) as H.
  destruct H as (_ & _ & _ & _ & Hwed & _).
  apply Hwed; reflexivity.
Defined.

(** A record of a category that is not listed. *)
Lemma generateChartSeries_ignores_unknown_category_witness :
  ~ In (category_name chess) ["Combat"]
  /\ generateChartSeries ["Combat"] ([wednesday] ++ chess :: [sunday])
     = generateChartSeries ["Combat"] ([wednesday] ++ [sunday]).
Proof.
  assert (Hout : ~ In (category_name chess) ["Combat"]).
  { simpl. intros [H|[]]. discriminate. }
  split; [exact Hout|].
  apply (WeeklyFacts.generateChartSeries_ignores_unknown_category
           Calendar.utcTime Calendar.utcZone ["Combat"] [wednesday] [sunday] chess Hout).
Defined.

(** A record of a listed category whose start does not parse. *)
Lemma generateChartSeries_unparseable_start_witness :
  Calendar.utcTime (start_time garbled) = None
  /\ map WeeklySpec.counts
       (generateChartSeries ["Combat"] ([wednesday] ++ garbled :: [sunday]))
     = map WeeklySpec.counts
         (generateChartSeries ["Combat"] ([wednesday] ++ [sunday])).
Proof.
  assert (Hnan : Calendar.utcTime (start_time garbled) = None) by reflexivity.
  split; [exact Hnan|].
  apply (WeeklyFacts.generateChartSeries_unparseable_start
           Calendar.utcTime Calendar.utcZone ["Combat"] [wednesday] [sunday] garbled Hnan).
Defined.

(** C2 as the specification states it fails: the only record of ["Ghost"] is
    invalid, and ["Ghost"] is a key of the output all the same, with
    no interval. *)
Lemma chartData_invalid_category_has_bucket :
  filter valid [wednesday; ghost] = [wednesday]
  /\ fst (chartData [wednesday; ghost] [] fresh)
     = Timeline.Returned
         [ Timeline.mkSeries "Combat"
             [Timeline.mkPoint "arena-1" (1704276000000, 1704281400000) "#CCCCCC"];
           Timeline.mkSeries "Ghost" [] ]
  /\ In "Ghost"
       (map Timeline.name
          [ Timeline.mkSeries "Combat"
              [Timeline.mkPoint "arena-1" (1704276000000, 1704281400000) "#CCCCCC"];
            Timeline.mkSeries "Ghost" [] ]).
Proof.
  split; [vm_compute; reflexivity|]. split; [vm_compute; reflexivity|].
  simpl. auto.
Qed.

Lemma chartData_drops_invalid_keeps_bucket_witness :
  TimelineSpec.plain [wednesday; ghost]
  /\ exists out w',
       chartData [wednesday; ghost] [] fresh = (Timeline.Returned out, w')
       /\ List.length (List.concat (map Timeline.data out)) = 1%nat
       /\ (In "Ghost" (map Timeline.name out)
           <-> In "Ghost" (map category_name [wednesday; ghost])).
Proof.
  assert (Hplain : TimelineSpec.plain [wednesday; ghost]) by (repeat constructor).
  split; [exact Hplain|].
  destruct (TimelineFacts.chartData_drops_invalid_keeps_bucket
              Calendar.utcTime clockAt [] [wednesday; ghost] fresh Hplain)
    as (out & w' & Hrun & _ & Hlen & _ & Hkeys & _).
  exists out, w'. split; [exact Hrun|]. split; [exact Hlen | apply Hkeys].
Defined.

(** C4 as the specification states it fails: category ["2"] occurs before
    category ["1"], and the output lists ["1"] first. *)
Lemma chartData_index_keys_reordered :
  TimelineSpec.firstOccurrences (map category_name [room2; room1]) = ["2"; "1"]
  /\ fst (chartData [room2; room1] [] fresh)
     = Timeline.Returned
         [ Timeline.mkSeries "1"
             [Timeline.mkPoint "table-3" (1704283200000, 1704286800000) "#CCCCCC"];
           Timeline.mkSeries "2"
             [Timeline.mkPoint "table-7" (1704276000000, 1704279600000) "#CCCCCC"] ].
Proof. split; vm_compute; reflexivity. Qed.

Lemma chartData_interval_and_key_order_witness :
  TimelineSpec.plain [wednesday; ghost; room2; sunday; room1; scheduled]
  /\ exists out w' idx,
       chartData [wednesday; ghost; room2; sunday; room1; scheduled] [] fresh
       = (Timeline.Returned out, w')
       /\ map Timeline.name out = idx ++ ["Combat"; "Ghost"]
       /\ Permutation idx ["2"; "1"].
Proof.
  split; [exact plain_sample|].
  destruct (TimelineFacts.chartData_interval_and_key_order
              Calendar.utcTime clockAt []
              [wednesday; ghost; room2; sunday; room1; scheduled] fresh plain_sample)
    as (out & w' & Hrun & _ & (idx & zs & Hkeys & Hperm & _) & _).
  exists out, w', idx. split; [exact Hrun|]. split; [exact Hkeys | exact Hperm].
Defined.

(** C6 as the specification states it fails: a session with no end whose start
    lies after the clock's reading gets an end before its start. *)
Lemma chartData_ongoing_future_start :
  Calendar.utcTime (start_time scheduled) = Some 32472144000000
  /\ end_time scheduled = None
  /\ fst (chartData [scheduled] [] fresh)
     = Timeline.Returned
         [ Timeline.mkSeries "Combat"
             [Timeline.mkPoint "arena-4" (32472144000000, 1800000000000) "#CCCCCC"] ]
  /\ ~ (1800000000000 >= 32472144000000).
Proof.
  split; [vm_compute; reflexivity|]. split; [reflexivity|].
  split; [vm_compute; reflexivity | lia].
Qed.

Lemma chartData_ongoing_session_witness :
  TimelineSpec.plain ([wednesday] ++ sunday :: [ghost])
  /\ Calendar.utcTime (start_time sunday) = Some 1704650400000
  /\ end_time sunday = None
  /\ exists out w' serie point,
       chartData ([wednesday] ++ sunday :: [ghost]) [] fresh
       = (Timeline.Returned out, w')
       /\ In serie out
       /\ In point (Timeline.data serie)
       /\ Timeline.y point = (1704650400000, clockAt 0).
Proof.
  assert (Hplain : TimelineSpec.plain ([wednesday] ++ sunday :: [ghost]))
    by (repeat constructor).
  assert (Hstart : Calendar.utcTime (start_time sunday) = Some 1704650400000)
    by reflexivity.
  assert (Hend : end_time sunday = None) by reflexivity.
  split; [exact Hplain|]. split; [exact Hstart|]. split; [exact Hend|].
  destruct (TimelineFacts.chartData_ongoing_session
              Calendar.utcTime clockAt [] [wednesday] [ghost] sunday fresh
              1704650400000 Hplain Hstart Hend)
    as (out & w' & serie & point & Hrun & _ & Hs & _ & Hp & _ & Hy & _).
  exists out, w', serie, point. repeat split; assumption.
Defined.

(** C8: the valid record [builder] has the category ["constructor"],
    which the colour map lacks; [chartData] throws. *)
Theorem chartData_constructor_category_throws :
  valid builder = true
  /\ Obj.getOwn ([] : Obj.t string) (category_name builder) = None
  /\ fst (chartData [builder] [] fresh) = Timeline.TypeError
  /\ fst (chartData [wednesday; builder; chess] [("Combat", "#18ffc3")] fresh)
     = Timeline.TypeError.
Proof.
  split; [vm_compute; reflexivity|]. split; [reflexivity|].
  split; vm_compute; reflexivity.
Qed.

(** C9 as the specification states it fails: two calls on the same batch, one
    after the other, return different series, because each reads the
    clock for the session that has no end. *)
Lemma chartData_twice_differs :
  chartData [sunday] [] fresh
  = (Timeline.Returned
       [ Timeline.mkSeries "Combat"
           [Timeline.mkPoint "arena-2" (1704650400000, 1800000000000) "#CCCCCC"] ],
     Timeline.mkWorld 1 [])
  /\ chartData [sunday] [] (Timeline.mkWorld 1 [])
     = (Timeline.Returned
          [ Timeline.mkSeries "Combat"
              [Timeline.mkPoint "arena-2" (1704650400000, 1800000000001) "#CCCCCC"] ],
        Timeline.mkWorld 2 [])
  /\ fst (chartData [sunday] [] fresh)
     <> fst (chartData [sunday] [] (Timeline.mkWorld 1 [])).
Proof.
  split; [vm_compute; reflexivity|]. split; [vm_compute; reflexivity|].
  vm_compute. intros H. discriminate H.
Qed.

Lemma assign_and_build_determined_witness :
  (forall i, (i < TimelineSpec.readings [wednesday; sunday; ghost])%nat ->
             clockAt (Timeline.ticks fresh + i)
             = clockBehind (Timeline.ticks (Timeline.mkWorld 5 []) + i))
  /\ fst (Timeline.chartData Calendar.utcTime clockAt [wednesday; sunday; ghost] [] fresh)
     = fst (Timeline.chartData Calendar.utcTime clockBehind [wednesday; sunday; ghost] []
              (Timeline.mkWorld 5 [])).
Proof.
  assert (Hclock : forall i, (i < TimelineSpec.readings [wednesday; sunday; ghost])%nat ->
                     clockAt (Timeline.ticks fresh + i)
                     = clockBehind (Timeline.ticks (Timeline.mkWorld 5 []) + i)).
  { intros i _. unfold clockAt, clockBehind. simpl Timeline.ticks. lia. }
  split; [exact Hclock|].
  destruct (TimelineFacts.assign_and_build_determined
              Calendar.utcTime clockAt clockBehind []
              [wednesday; sunday; ghost] fresh (Timeline.mkWorld 5 []) Hclock)
    as (_ & Hsame & _).
  exact Hsame.
Defined.

End Examples.

(* ================================================================= *)
(** * Further properties of the code *)

(* ================================================================= *)
(** ** ColorAssigner, continued *)

Module ColorMore.
Import Color ColorSpec.

Lemma toInt32_cong (h : Z) : exists q, JS.toInt32 h = h + 4294967296 * q.
Proof.
  unfold JS.toInt32. change (2 ^ 32) with 4294967296. change (2 ^ 31) with 2147483648.
  exists (- ((h + 2147483648) / 4294967296)).
  pose proof (Z.div_mod (h + 2147483648) 4294967296). lia.
Qed.


Lemma toInt32_mod256 (h : Z) : JS.toInt32 h mod 256 = h mod 256.
Proof.
  destruct (toInt32_cong h) as (q & ->).
  replace (h + 4294967296 * q) with (h + (16777216 * q) * 256) by lia.
  apply Z.mod_add. lia.
Qed.

Lemma band_255 (h : Z) : JS.band h 255 = h mod 256.
Proof.
  unfold JS.band. replace (JS.toInt32 255) with (Z.ones 8) by reflexivity.
  rewrite Z.land_ones by lia. apply toInt32_mod256.
Qed.

Lemma rem_byte (h : Z) : JS.rem (h mod 256) 256 = h mod 256.
Proof.
  unfold JS.rem. pose proof (Z.mod_pos_bound h 256 eq_refl).
  apply Z.rem_small. lia.
Qed.

Lemma sar_div (h k : Z) :
  0 <= k -> exists q, JS.sar h k = (h + 4294967296 * q) / 2 ^ k.
Proof.
  intros Hk. unfold JS.sar. destruct (toInt32_cong h) as (q & ->).
  exists q. apply Z.shiftr_div_pow2. assumption.
Qed.

Lemma red_byte (h : Z) : red h = h mod 256.
Proof. unfold red. now rewrite band_255, rem_byte. Qed.

Lemma green_byte (h : Z) : green h = (h / 256) mod 256.
Proof.
  unfold green. rewrite band_255, rem_byte.
  destruct (sar_div h 8) as (q & ->); [lia|]. change (2 ^ 8) with 256.
  replace (h + 4294967296 * q) with (h + (16777216 * q) * 256) by lia.
  rewrite Z.div_add by lia.
  replace (h / 256 + 16777216 * q) with (h / 256 + (65536 * q) * 256) by lia.
  apply Z.mod_add. lia.
Qed.

Lemma blue_byte (h : Z) : blue h = (h / 65536) mod 256.
Proof.
  unfold blue. rewrite band_255, rem_byte.
  destruct (sar_div h 16) as (q & ->); [lia|]. change (2 ^ 16) with 65536.
  replace (h + 4294967296 * q) with (h + (65536 * q) * 65536) by lia.
  rewrite Z.div_add by lia.
  replace (h / 65536 + 65536 * q) with (h / 65536 + (256 * q) * 256) by lia.
  apply Z.mod_add. lia.
Qed.







(** *** Properties *)

(** X1: the three channels are the low three bytes of the hash: the
    remainders of [hash], [hash / 2^8] and [hash / 2^16] modulo 256, with
    the division rounding down; a negative hash gives no negative
    channel, and the bits from 24 upwards play no part. *)
Theorem channels_are_hash_bytes (hash : Z) :
  red hash = hash mod 256
  /\ green hash = (hash / 256) mod 256
  /\ blue hash = (hash / 65536) mod 256
  /\ 0 <= red hash < 256 /\ 0 <= green hash < 256 /\ 0 <= blue hash < 256.
Proof.
  rewrite red_byte, green_byte, blue_byte.
  pose proof (Z.mod_pos_bound hash 256 eq_refl).
  pose proof (Z.mod_pos_bound (hash / 256) 256 eq_refl).
  pose proof (Z.mod_pos_bound (hash / 65536) 256 eq_refl).
  repeat split; lia.
Qed.

(** X2: on every channel value 0..255, [Math.floor(channel * 1.2)]
    computed on doubles and clamped to 255 is the integer
    [min 255 (6 * channel / 5)], division rounding down: the binary
    rounding of 1.2 and of the product never moves the floor. *)
Theorem brighten_is_six_fifths (channel : Z) :
  0 <= channel < 256 ->
  JS.floor (PrimFloat.mul (JS.toFloat channel) brightnessFactor) = 6 * channel / 5
  /\ brighten channel = Z.min 255 (6 * channel / 5).
Proof.
  intros H. split; [|now apply ColorFacts.brighten_exact].
  apply ColorFacts.byte_cases in H. apply Z.eqb_eq.
  revert channel H. apply forallb_forall. vm_compute. reflexivity.
Qed.

(** X3: brightening never darkens a channel and never leaves the byte
    range; it is monotone, saturates to 255 exactly for the channels
    from 213 upwards, and leaves unchanged only the channels below 5
    and the channel 255. *)
Theorem brighten_bounds (a b : Z) :
  0 <= a <= b -> b < 256 ->
  a <= brighten a <= 255
  /\ brighten a <= brighten b
  /\ (brighten a = 255 <-> 213 <= a)
  /\ (brighten a = a <-> a < 5 \/ a = 255).
Proof.
  intros Ha Hb.
  rewrite !ColorFacts.brighten_exact by lia.
  pose proof (Z.div_mod (6 * a) 5 ltac:(lia)).
  pose proof (Z.mod_pos_bound (6 * a) 5 ltac:(lia)).
  pose proof (Z.div_mod (6 * b) 5 ltac:(lia)).
  pose proof (Z.mod_pos_bound (6 * b) 5 ltac:(lia)).
  repeat split; lia.
Qed.



Lemma hash_growth (codes : list Z) (hash : Z) :
  Forall (fun c => 0 <= c < 65536) codes ->
  Z.abs (fold_left hashStep codes hash)
  <= Z.abs hash + Z.of_nat (List.length codes) * (2 ^ 31 + 65535).
Proof.
  intros H. revert hash. induction H as [|c rest Hc Hr IH]; intros hash.
  - simpl. lia.
  - cbn [fold_left List.length]. specialize (IH (hashStep hash c)).
    pose proof (ColorFacts.hashStep_growth hash c Hc). lia.
Qed.

(** X19: for a string of fewer than four million UTF-16 code units the
    hash stays below 2^53 in absolute value at every step of the loop,
    the range in which a double holds every integer exactly: the
    additions and subtractions of line 64 never round. *)
Theorem hash_stays_exact (codes : list Z) (n : nat) :
  Forall (fun c => 0 <= c < 65536) codes ->
  Z.of_nat (List.length codes) < 4000000 ->
  Z.abs (hashOf (firstn n codes)) < 2 ^ 53.
Proof.
  intros Hcodes Hlen. unfold hashOf.
  assert (Hprefix : Forall (fun c => 0 <= c < 65536) (firstn n codes)).
  { rewrite <- (firstn_skipn n codes) in Hcodes.
    now apply Forall_app in Hcodes. }
  pose proof (hash_growth (firstn n codes) 0 Hprefix) as H.
  assert (Hn : (List.length (firstn n codes) <= List.length codes)%nat).
  { rewrite length_firstn. lia. }
  change (2 ^ 31 + 65535) with 2147549183 in H. change (2 ^ 53) with 9007199254740992.
  simpl Z.abs in H. nia.
Qed.

End ColorMore.

(* ================================================================= *)
(** ** The colour map *)

Module CategoriesFacts.
Import Timeline TimelineSpec Categories CategoriesSpec.

#[local] Abbreviation entry :=
  (fun c : string => (c, Color.generateColorFromString c)).







(** *** Properties *)



End CategoriesFacts.

(* ================================================================= *)
(** ** WeeklyAggregator, continued *)

Module WeeklyMore.
Import Weekly WeeklySpec WeeklyCount.

Section Host.
Variable getTime : string -> option Z.
Variable localTZA : Z -> Z.

#[local] Abbreviation getDay := (Weekly.getDay getTime localTZA).
#[local] Abbreviation tally := (Weekly.tally getTime localTZA).
#[local] Abbreviation counted := (Weekly.counted getTime localTZA).
#[local] Abbreviation generateChartSeries :=
  (Weekly.generateChartSeries getTime localTZA).
#[local] Abbreviation counts := (WeeklyCount.counts getTime).
#[local] Abbreviation lands := (WeeklyCount.lands getTime localTZA).
#[local] Abbreviation fallsOn := (WeeklyCount.fallsOn getTime localTZA).
#[local] Abbreviation strays := (WeeklyCount.strays getTime).

(** *** [indexOf] gives the first position *)

Lemma indexOf_cases (l : list string) (x : string) :
  (indexOf l x = -1 /\ ~ In x l)
  \/ exists n, indexOf l x = Z.of_nat n
               /\ nth_error l n = Some x
               /\ ~ In x (firstn n l).
Proof.
  destruct (in_dec string_dec x l) as [Hin|Hout].
  - right. destruct (WeeklyFacts.indexOfFrom_present getTime localTZA l x 0 Hin)
      as (n & E & Hn & Hf).
    exists n. unfold indexOf. rewrite E. repeat split; auto.
  - left. split; [now apply WeeklyFacts.indexOfFrom_absent | assumption].
Qed.

Lemma nth_error_firstn_In {A} (l : list A) (i n : nat) (x : A) :
  nth_error l i = Some x -> (i < n)%nat -> In x (firstn n l).
Proof.
  revert i n. induction l as [|h rest IH]; intros [|i] [|n] H Hlt; simpl in *;
    try discriminate; try lia.
  - injection H as ->. now left.
  - right. apply (IH i); [assumption | lia].
Qed.

(** Two positions that hold [x] with nothing equal before them are one. *)
Lemma first_position_unique (l : list string) (x : string) (n m : nat) :
  nth_error l n = Some x -> ~ In x (firstn n l) ->
  nth_error l m = Some x -> ~ In x (firstn m l) -> n = m.
Proof.
  intros Hn Hfn Hm Hfm.
  destruct (Nat.lt_trichotomy n m) as [H|[H|H]]; [|assumption|].
  - exfalso. apply Hfm. now apply (nth_error_firstn_In l n m).
  - exfalso. apply Hfn. now apply (nth_error_firstn_In l m n).
Qed.

Lemma indexOf_first (l : list string) (x : string) (n : nat) :
  nth_error l n = Some x -> ~ In x (firstn n l) -> indexOf l x = Z.of_nat n.
Proof.
  intros Hn Hf. destruct (indexOf_cases l x) as [[_ Hout]|(m & E & Hm & Hfm)].
  - exfalso. apply Hout. eapply nth_error_In. eassumption.
  - rewrite E. f_equal. now apply (first_position_unique l x).
Qed.

(** *** Lists updated in place *)

Lemma nth_error_updateAt {A} (f : A -> A) (k i : nat) (l : list A) :
  nth_error (updateAt k f l) i
  = if Nat.eqb i k then option_map f (nth_error l i) else nth_error l i.
Proof.
  revert k i. induction l as [|a rest IH]; intros [|k] [|i]; simpl;
    try reflexivity.
  - now destruct (Nat.eqb i k).
  - apply IH.
Qed.

Lemma updateAt_length {A} (f : A -> A) (k : nat) (l : list A) :
  List.length (updateAt k f l) = List.length l.
Proof.
  revert k. induction l as [|a rest IH]; intros [|k]; simpl; rewrite ?IH; reflexivity.
Qed.

Lemma nth_incrementAt (a j : nat) (l : list Z) :
  (a < List.length l)%nat ->
  nth j (incrementAt a l) 0 = nth j l 0 + (if Nat.eqb j a then 1 else 0).
Proof.
  revert a j. induction l as [|v rest IH]; intros [|a] [|j] H; simpl in *;
    try lia.
  apply IH. lia.
Qed.

Lemma sum_incrementAt (a : nat) (l : list Z) :
  (a < List.length l)%nat -> sum (incrementAt a l) = sum l + 1.
Proof.
  unfold sum. revert a. induction l as [|v rest IH]; intros [|a] H; simpl in *;
    try lia.
  rewrite IH by lia. lia.
Qed.

Lemma incrementAt_comm (a b : nat) (l : list Z) :
  incrementAt a (incrementAt b l) = incrementAt b (incrementAt a l).
Proof.
  revert a b. induction l as [|v rest IH]; intros [|a] [|b]; simpl;
    try reflexivity.
  now rewrite IH.
Qed.

Lemma updateAt_comm {A} (f g : A -> A) (i k : nat) (l : list A) :
  (forall a, f (g a) = g (f a)) ->
  updateAt i f (updateAt k g l) = updateAt k g (updateAt i f l).
Proof.
  intros Hfg. revert i k. induction l as [|a rest IH]; intros [|i] [|k]; simpl;
    try reflexivity.
  - now rewrite Hfg.
  - now rewrite IH.
Qed.

Lemma fold_left_perm {A B} (step : B -> A -> B) (l1 l2 : list A) (init : B) :
  (forall b x y, step (step b x) y = step (step b y) x) ->
  Permutation l1 l2 -> fold_left step l1 init = fold_left step l2 init.
Proof.
  intros Hcomm Hperm. revert init.
  induction Hperm as [|x l l' _ IH|x y l|l l' l'' _ IH1 _ IH2]; intros init; simpl.
  - reflexivity.
  - apply IH.
  - now rewrite Hcomm.
  - now rewrite IH1, IH2.
Qed.

(** *** One record *)

Lemma adjust_cases (g : GameData) :
  (getTime (start_time g) = None /\ adjustDay (getDay (start_time g)) = None)
  \/ (exists a, adjustDay (getDay (start_time g)) = Some (Z.of_nat a)
                /\ (a < 7)%nat /\ getTime (start_time g) <> None).
Proof.
  destruct (adjustDay (getDay (start_time g))) as [a|] eqn:E.
  - right. exists (Z.to_nat a).
    pose proof (WeeklyFacts.adjustDay_range getTime localTZA _ _ E) as Hr.
    rewrite Z2Nat.id by lia. repeat split; [lia|].
    unfold Weekly.getDay in E. now destruct (getTime (start_time g)).
  - left. unfold Weekly.getDay in *.
    destruct (getTime (start_time g)); [|now split].
    simpl in E. destruct (_ =? 0) in E; discriminate.
Qed.

Lemma tally_cases (categories : list string) (series : list Series) (g : GameData) :
  (indexOf categories (category_name g) = -1 /\ tally categories series g = series)
  \/ (exists n, indexOf categories (category_name g) = Z.of_nat n
                /\ nth_error categories n = Some (category_name g)
                /\ tally categories series g
                   = updateAt n
                       (fun serie =>
                          mkSeries (name serie)
                            (increment (data serie)
                               (adjustDay (getDay (start_time g)))))
                       series).
Proof.
  unfold Weekly.tally.
  destruct (indexOf_cases categories (category_name g)) as [[E _]|(n & E & Hn & _)];
    rewrite E.
  - left. split; reflexivity.
  - right. exists n. repeat split; [assumption|].
    replace (Z.of_nat n =? -1) with false by (symmetry; apply Z.eqb_neq; lia).
    simpl. now rewrite Nat2Z.id.
Qed.

Lemma tally_nth (categories : list string) (series : list Series) (g : GameData)
  (i : nat) (s' : Series) :
  Forall wellFormed series ->
  nth_error (tally categories series g) i = Some s' ->
  exists s, nth_error series i = Some s
    /\ name s' = name s
    /\ (forall j, (j < 7)%nat ->
          slot s' j = slot s j + (if lands categories i j g then 1 else 0))
    /\ nanProperty (data s') = nanProperty (data s) || strays categories i g.
Proof.
  intros Hwf Hnth. unfold WeeklyCount.lands, WeeklyCount.strays.
  destruct (tally_cases categories series g) as [[E Hsame]|(n & E & _ & Hup)]; rewrite E.
  - rewrite Hsame in Hnth. exists s'.
    replace (-1 =? Z.of_nat i) with false by (symmetry; apply Z.eqb_neq; lia).
    simpl. rewrite orb_false_r. repeat split; auto. intros; lia.
  - rewrite Hup, nth_error_updateAt in Hnth.
    destruct (Nat.eqb_spec i n) as [->|Hne].
    + destruct (nth_error series n) as [s|] eqn:Hs; [|discriminate].
      simpl in Hnth. injection Hnth as <-. exists s.
      rewrite Z.eqb_refl. simpl.
      assert (Hlen : List.length (slots (data s)) = 7%nat).
      { rewrite Forall_forall in Hwf. apply (Hwf s). eapply nth_error_In. eassumption. }
      destruct (adjust_cases g) as [[Hnan ->]|(a & -> & Ha & Hparse)].
      * rewrite Hnan. simpl. rewrite orb_true_r. repeat split; auto.
        intros j Hj. unfold slot. simpl. lia.
      * destruct (getTime (start_time g)); [|congruence].
        simpl. rewrite orb_false_r, Nat2Z.id. repeat split; auto.
        intros j Hj. unfold slot. simpl.
        rewrite nth_incrementAt by lia.
        destruct (Nat.eqb_spec j a) as [->|Hja].
        -- now rewrite Z.eqb_refl.
        -- replace (Z.of_nat a =? Z.of_nat j) with false
             by (symmetry; apply Z.eqb_neq; lia). reflexivity.
    + exists s'.
      replace (Z.of_nat n =? Z.of_nat i) with false by (symmetry; apply Z.eqb_neq; lia).
      simpl. rewrite orb_false_r. repeat split; auto. intros; lia.
Qed.

(** *** A batch *)

Lemma fold_tally_nth (categories : list string) (batch : list GameData)
  (series : list Series) (i : nat) (s' : Series) :
  Forall wellFormed series ->
  nth_error (fold_left (tally categories) batch series) i = Some s' ->
  exists s, nth_error series i = Some s
    /\ name s' = name s
    /\ (forall j, (j < 7)%nat ->
          slot s' j
          = slot s j + Z.of_nat (List.length (filter (lands categories i j) batch)))
    /\ nanProperty (data s')
       = nanProperty (data s) || existsb (strays categories i) batch.
Proof.
  revert series. induction batch as [|g rest IH]; intros series Hwf Hnth; simpl in *.
  - exists s'. rewrite orb_false_r. repeat split; auto. intros; lia.
  - destruct (IH _ (WeeklyFacts.tally_wellFormed getTime localTZA _ _ g Hwf) Hnth)
      as (s1 & H1 & Hn1 & Hs1 & Hp1).
    destruct (tally_nth _ _ _ _ _ Hwf H1) as (s & H0 & Hn0 & Hs0 & Hp0).
    exists s. split; [assumption|]. split; [congruence|]. split.
    + intros j Hj. rewrite (Hs1 j Hj), (Hs0 j Hj).
      destruct (lands categories i j g); simpl List.length; lia.
    + rewrite Hp1, Hp0. now rewrite orb_assoc.
Qed.

(** The series before the filter, position by position. *)
Lemma counted_nth (categories : list string) (batch : list GameData)
  (i : nat) (serie : Series) :
  nth_error (counted categories batch) i = Some serie ->
  nth_error categories i = Some (name serie)
  /\ List.length (slots (data serie)) = 7%nat
  /\ (forall j, (j < 7)%nat ->
        slot serie j = Z.of_nat (List.length (filter (lands categories i j) batch)))
  /\ nanProperty (data serie) = existsb (strays categories i) batch.
Proof.
  intros Hnth.
  assert (Hwf : Forall wellFormed (counted categories batch)).
  { apply WeeklyFacts.fold_tally_wellFormed, WeeklyFacts.initialSeries_wellFormed. }
  destruct (fold_tally_nth _ _ _ _ _
              (WeeklyFacts.initialSeries_wellFormed categories) Hnth)
    as (s & H0 & Hn & Hs & Hp).
  unfold initialSeries in H0. rewrite nth_error_map in H0.
  destruct (nth_error categories i) as [c|]; [|discriminate].
  simpl in H0. injection H0 as <-. simpl in *.
  split; [now rewrite Hn|]. split.
  { rewrite Forall_forall in Hwf. apply (Hwf serie). eapply nth_error_In. eassumption. }
  split; [|assumption].
  intros j Hj. rewrite (Hs j Hj). unfold slot. simpl.
  do 7 (destruct j as [|j]; [reflexivity|]). lia.
Qed.

(** A series with a positive count sits at the first position of its
    name. *)
Lemma emitted_first (categories : list string) (batch : list GameData)
  (i : nat) (serie : Series) :
  nth_error (counted categories batch) i = Some serie ->
  nonEmpty serie = true ->
  ~ In (name serie) (firstn i categories)
  /\ exists g, In g batch /\ category_name g = name serie
               /\ getTime (start_time g) <> None.
Proof.
  intros Hnth Hne.
  destruct (counted_nth _ _ _ _ Hnth) as (Hc & Hlen & Hs & _).
  unfold nonEmpty in Hne. apply existsb_exists in Hne.
  destruct Hne as (v & Hv & Hpos). apply Z.ltb_lt in Hpos.
  destruct (In_nth _ _ 0 Hv) as (j & Hj & E).
  rewrite Hlen in Hj. specialize (Hs j Hj). unfold slot in Hs. rewrite E in Hs.
  destruct (filter (lands categories i j) batch) as [|g rest] eqn:F;
    [simpl in Hs; lia|].
  assert (Hg : In g (filter (lands categories i j) batch)) by (rewrite F; now left).
  apply filter_In in Hg. destruct Hg as [Hg Hl].
  unfold WeeklyCount.lands in Hl. apply andb_true_iff in Hl. destruct Hl as [Hi Ha].
  apply Z.eqb_eq in Hi.
  destruct (indexOf_cases categories (category_name g)) as [[E' _]|(n & E' & Hn & Hf)];
    [lia|].
  assert (n = i) by lia. subst n.
  assert (Hname : category_name g = name serie) by congruence.
  split; [now rewrite <- Hname|].
  exists g. repeat split; auto.
  destruct (adjust_cases g) as [[_ Hnone]|(a & _ & _ & Hparse)]; [|assumption].
  rewrite Hnone in Ha. discriminate.
Qed.

(** A counted record brings the series of its category into the
    output. *)
Lemma record_emitted (categories : list string) (batch : list GameData) (g : GameData) :
  In g batch -> counts categories g = true ->
  In (category_name g) (map name (generateChartSeries categories batch)).
Proof.
  intros Hg Hcounts. unfold WeeklyCount.counts in Hcounts.
  apply andb_true_iff in Hcounts. destruct Hcounts as [Hi Hp].
  unfold Weekly.generateChartSeries.
  destruct (indexOf_cases categories (category_name g)) as [[E _]|(n & E & Hn & Hf)].
  { rewrite E in Hi. discriminate. }
  assert (Hlen : List.length (counted categories batch) = List.length categories).
  { rewrite <- (length_map name). unfold Weekly.counted.
    now rewrite (WeeklyFacts.fold_tally_names getTime localTZA),
      WeeklyFacts.initialSeries_names. }
  destruct (nth_error (counted categories batch) n) as [serie|] eqn:Hnth.
  2:{ apply nth_error_None in Hnth.
      assert (n < List.length categories)%nat by (apply nth_error_Some; congruence).
      lia. }
  destruct (counted_nth _ _ _ _ Hnth) as (Hname & Hlen7 & Hs & _).
  apply in_map_iff. exists serie. split; [congruence|].
  apply filter_In. split; [eapply nth_error_In; eassumption|].
  destruct (adjust_cases g) as [[Hnan _]|(a & Ha & Ha7 & _)];
    [rewrite Hnan in Hp; discriminate|].
  unfold nonEmpty. apply existsb_exists. exists (slot serie a). split.
  - unfold slot. apply nth_In. lia.
  - apply Z.ltb_lt. rewrite (Hs a Ha7).
    assert (Hl : In g (filter (lands categories n a) batch)).
    { apply filter_In. split; [assumption|]. unfold WeeklyCount.lands.
      now rewrite E, Ha, !Z.eqb_refl. }
    destruct (filter (lands categories n a) batch); [contradiction | simpl; lia].
Qed.

(** *** Sums *)

Lemma total_updateAt (f : Series -> Series) (d : Z) (n : nat) (series : list Series)
  (s : Series) :
  nth_error series n = Some s ->
  sum (slots (data (f s))) = sum (slots (data s)) + d ->
  total (updateAt n f series) = total series + d.
Proof.
  unfold total. revert n. induction series as [|h rest IH]; intros [|n] Hn Hf;
    simpl in *; try discriminate.
  - injection Hn as ->. unfold sum in *. simpl. lia.
  - specialize (IH n Hn Hf). unfold sum in *. simpl in *. lia.
Qed.

Lemma total_tally (categories : list string) (series : list Series) (g : GameData) :
  Forall wellFormed series ->
  List.length series = List.length categories ->
  total (tally categories series g)
  = total series + (if counts categories g then 1 else 0).
Proof.
  intros Hwf Hlen. unfold WeeklyCount.counts.
  destruct (tally_cases categories series g) as [[E Hsame]|(n & E & Hn & Hup)]; rewrite E.
  - rewrite Hsame. simpl. lia.
  - replace (Z.of_nat n =? -1) with false by (symmetry; apply Z.eqb_neq; lia).
    simpl negb. rewrite andb_true_l, Hup.
    assert (Hs : exists s, nth_error series n = Some s).
    { destruct (nth_error series n) as [s|] eqn:F; [eauto|].
      apply nth_error_None in F.
      assert (n < List.length categories)%nat
        by (apply nth_error_Some; congruence). lia. }
    destruct Hs as (s & Hs).
    assert (Hs7 : List.length (slots (data s)) = 7%nat).
    { rewrite Forall_forall in Hwf. apply (Hwf s). eapply nth_error_In. eassumption. }
    apply (total_updateAt _ _ n series s Hs). simpl.
    destruct (adjust_cases g) as [[Hnan ->]|(a & -> & Ha & Hparse)].
    + rewrite Hnan. simpl. lia.
    + destruct (getTime (start_time g)); [|congruence].
      simpl. rewrite Nat2Z.id. apply sum_incrementAt. lia.
Qed.

Lemma total_fold (categories : list string) (batch : list GameData)
  (series : list Series) :
  Forall wellFormed series ->
  List.length series = List.length categories ->
  total (fold_left (tally categories) batch series)
  = total series + Z.of_nat (List.length (filter (counts categories) batch)).
Proof.
  revert series. induction batch as [|g rest IH]; intros series Hwf Hlen; simpl.
  - lia.
  - rewrite IH.
    + rewrite total_tally by assumption.
      destruct (counts categories g); simpl List.length; lia.
    + now apply WeeklyFacts.tally_wellFormed.
    + rewrite <- Hlen, <- !(length_map name).
      now rewrite (WeeklyFacts.tally_names getTime localTZA).
Qed.

Lemma total_initial (categories : list string) :
  total (initialSeries categories) = 0.
Proof.
  unfold total, initialSeries. induction categories as [|c rest IH]; simpl in *;
    [reflexivity|]. unfold sum in *. simpl in *. lia.
Qed.

Lemma sum_all_zero (l : list Z) :
  Forall (fun v => 0 <= v) l -> existsb (fun v => 0 <? v) l = false -> sum l = 0.
Proof.
  unfold sum. induction 1 as [|v rest Hv Hr IH]; simpl; [reflexivity|].
  intros H. apply orb_false_iff in H. destruct H as [Hz Hrest].
  apply Z.ltb_ge in Hz. rewrite IH by assumption. lia.
Qed.

Lemma total_filter (series : list Series) :
  Forall wellFormed series -> total (filter nonEmpty series) = total series.
Proof.
  unfold total. induction 1 as [|s rest [_ Hs] Hr IH]; simpl; [reflexivity|].
  destruct (nonEmpty s) eqn:E; unfold sum in *; simpl in *.
  - lia.
  - pose proof (sum_all_zero _ Hs E) as Hz. unfold sum in Hz. lia.
Qed.

(** *** Names without repetition *)

Lemma filter_names_NoDup (P : Series -> bool) (series : list Series) :
  (forall i s, nth_error series i = Some s -> P s = true ->
               ~ In (name s) (map name (firstn i series))) ->
  NoDup (map name (filter P series)).
Proof.
  induction series as [|x series IH] using rev_ind; intros H; [constructor|].
  rewrite filter_app, map_app. simpl.
  assert (Hprefix : NoDup (map name (filter P series))).
  { apply IH. intros i s Hi Hp.
    assert (Hlt : (i < List.length series)%nat) by (apply nth_error_Some; congruence).
    specialize (H i s). rewrite nth_error_app1 in H by assumption.
    rewrite firstn_app in H.
    replace (i - List.length series)%nat with 0%nat in H by lia.
    simpl in H. rewrite app_nil_r in H. now apply H. }
  destruct (P x) eqn:Hx; simpl; [|now rewrite app_nil_r].
  apply NoDup_app; [assumption | repeat constructor; simpl; tauto |].
  intros c Hc [<-|[]].
  specialize (H (List.length series) x).
  rewrite nth_error_app2, Nat.sub_diag in H by lia.
  rewrite firstn_app, firstn_all, Nat.sub_diag in H. simpl in H.
  rewrite app_nil_r in H. apply (H eq_refl Hx).
  apply in_map_iff in Hc. destruct Hc as (s & Hs & Hin).
  apply filter_In in Hin. apply in_map_iff. exists s. tauto.
Qed.

(** *** Properties *)

(** X9: in every emitted series, slot [j] (Monday = 0) holds the number
    of records of the batch whose category is the name of the series
    and whose start falls on that weekday; the series has exactly seven
    slots and its name is a listed category. *)
Theorem generateChartSeries_slot_counts
  (categories : list string) (batch : list GameData) (serie : Series) :
  In serie (generateChartSeries categories batch) ->
  In (name serie) categories
  /\ List.length (slots (data serie)) = 7%nat
  /\ forall j, (j < 7)%nat ->
       slot serie j
       = Z.of_nat (List.length (filter (fallsOn (name serie) j) batch)).
Proof.
  intros Hin. unfold Weekly.generateChartSeries in Hin.
  apply filter_In in Hin. destruct Hin as [Hin Hne].
  destruct (In_nth_error _ _ Hin) as (i & Hnth).
  destruct (counted_nth _ _ _ _ Hnth) as (Hc & Hlen & Hs & _).
  destruct (emitted_first _ _ _ _ Hnth Hne) as (Hfirst & _).
  split; [eapply nth_error_In; eassumption|]. split; [assumption|].
  intros j Hj. rewrite (Hs j Hj). do 2 f_equal. apply filter_ext. intros g.
  unfold WeeklyCount.lands, WeeklyCount.fallsOn. f_equal.
  destruct (String.eqb_spec (category_name g) (name serie)) as [E|E].
  - rewrite E, (indexOf_first categories (name serie) i) by assumption.
    apply Z.eqb_refl.
  - apply Z.eqb_neq. intros Hi.
    destruct (indexOf_cases categories (category_name g)) as [[E' _]|(n & E' & Hn & _)];
      [lia|].
    assert (n = i) by lia. subst n. congruence.
Qed.

(** X10: nothing is lost and nothing is counted twice: the counts of
    the emitted series add up to the number of records whose category
    is listed and whose start parses; the series dropped by the filter
    hold none of them. *)
Theorem generateChartSeries_total
  (categories : list string) (batch : list GameData) :
  total (generateChartSeries categories batch)
  = Z.of_nat (List.length (filter (counts categories) batch))
  /\ total (generateChartSeries categories batch) = total (counted categories batch).
Proof.
  assert (Hwf : Forall wellFormed (counted categories batch)).
  { apply WeeklyFacts.fold_tally_wellFormed, WeeklyFacts.initialSeries_wellFormed. }
  unfold Weekly.generateChartSeries. rewrite total_filter by assumption.
  split; [|reflexivity].
  unfold Weekly.counted. rewrite total_fold, total_initial.
  - lia.
  - apply WeeklyFacts.initialSeries_wellFormed.
  - unfold initialSeries. apply length_map.
Qed.

(** X11: a category is the name of an emitted series exactly when it is
    listed and some record of it has a start that parses. *)
Theorem generateChartSeries_names
  (categories : list string) (batch : list GameData) (c : string) :
  In c (map name (generateChartSeries categories batch))
  <-> In c categories
      /\ exists g, In g batch /\ category_name g = c
                   /\ getTime (start_time g) <> None.
Proof.
  unfold Weekly.generateChartSeries. split.
  - intros H. apply in_map_iff in H. destruct H as (serie & <- & Hin).
    apply filter_In in Hin. destruct Hin as [Hin Hne].
    destruct (In_nth_error _ _ Hin) as (i & Hnth).
    destruct (counted_nth _ _ _ _ Hnth) as (Hc & _).
    destruct (emitted_first _ _ _ _ Hnth Hne) as (_ & Hg).
    split; [eapply nth_error_In; eassumption | exact Hg].
  - intros (Hc & g & Hg & <- & Hparse).
    apply record_emitted; [assumption|]. unfold WeeklyCount.counts.
    destruct (getTime (start_time g)); [|congruence]. rewrite andb_true_r.
    destruct (indexOf_cases categories (category_name g)) as [[_ Hout]|(n & E & _)];
      [contradiction|].
    rewrite E. apply negb_true_iff, Z.eqb_neq. lia.
Qed.

(** X18: the output is empty exactly when no record of the batch is
    counted, that is, has a listed category and a start that parses; in
    particular for an empty batch and for an empty category list. *)
Theorem generateChartSeries_empty_iff
  (categories : list string) (batch : list GameData) :
  (generateChartSeries categories batch = []
   <-> forall g, In g batch -> counts categories g = false)
  /\ generateChartSeries categories [] = []
  /\ generateChartSeries [] batch = [].
Proof.
  assert (Hiff : forall cats b,
             generateChartSeries cats b = []
             <-> forall g, In g b -> counts cats g = false).
  { intros cats b. split.
    - intros Hempty g Hg.
      destruct (counts cats g) eqn:E; [|reflexivity]. exfalso.
      pose proof (record_emitted cats b g Hg E) as Hin.
      rewrite Hempty in Hin. contradiction.
    - intros Hnone.
      destruct (generateChartSeries cats b) as [|serie rest] eqn:E; [reflexivity|].
      exfalso.
      assert (Hin : In serie (generateChartSeries cats b)) by (rewrite E; now left).
      unfold Weekly.generateChartSeries in Hin.
      apply filter_In in Hin. destruct Hin as [Hin Hne].
      destruct (In_nth_error _ _ Hin) as (i & Hnth).
      destruct (counted_nth _ _ _ _ Hnth) as (Hc & _).
      destruct (emitted_first _ _ _ _ Hnth Hne) as (_ & g & Hg & Hname & Hparse).
      specialize (Hnone g Hg). unfold WeeklyCount.counts in Hnone.
      destruct (getTime (start_time g)); [|congruence].
      rewrite andb_true_r in Hnone. apply negb_false_iff, Z.eqb_eq in Hnone.
      destruct (indexOf_cases cats (category_name g)) as [[_ Hout]|(n & E' & _)];
        [|lia].
      apply Hout. rewrite Hname. eapply nth_error_In. eassumption. }
  split; [apply Hiff|]. split.
  - apply Hiff. intros g [].
  - apply Hiff. intros g _. unfold WeeklyCount.counts. reflexivity.
Qed.

(** X12: the order of the records does not matter: any rearrangement of
    the batch gives the same series. *)
Theorem generateChartSeries_permutation
  (categories : list string) (batch1 batch2 : list GameData) :
  Permutation batch1 batch2 ->
  generateChartSeries categories batch1 = generateChartSeries categories batch2.
Proof.
  intros Hperm. unfold Weekly.generateChartSeries, Weekly.counted. f_equal.
  apply fold_left_perm; [|assumption].
  intros series g1 g2. unfold Weekly.tally.
  destruct (negb (indexOf categories (category_name g1) =? -1));
    destruct (negb (indexOf categories (category_name g2) =? -1)); try reflexivity.
  apply updateAt_comm. intros serie. simpl. f_equal.
  destruct (adjustDay (getDay (start_time g1))), (adjustDay (getDay (start_time g2)));
    unfold increment; simpl; try reflexivity.
  f_equal. apply incrementAt_comm.
Qed.

(** X13: no two emitted series have the same name, also when
    [categories] lists a name more than once: only the series at the
    first position of a name ever counts a record. *)
Theorem generateChartSeries_distinct_names
  (categories : list string) (batch : list GameData) :
  NoDup (map name (generateChartSeries categories batch)).
Proof.
  unfold Weekly.generateChartSeries. apply filter_names_NoDup.
  intros i serie Hnth Hne.
  destruct (emitted_first _ _ _ _ Hnth Hne) as (Hfirst & _).
  rewrite <- firstn_map. unfold Weekly.counted.
  now rewrite (WeeklyFacts.fold_tally_names getTime localTZA),
    WeeklyFacts.initialSeries_names.
Qed.

End Host.

End WeeklyMore.

(* ================================================================= *)
(** ** TimelineBuilder, continued *)

Module TimelineMoreFacts.
Import Timeline TimelineSpec TimelineMore TimelineFacts.

Lemma intervalsOf_absent (c : string) (out : list Series) :
  ~ In c (map name out) -> intervalsOf c out = [].
Proof.
  unfold intervalsOf. induction out as [|s rest IH]; simpl; [reflexivity|].
  intros H. destruct (String.eqb_spec (name s) c) as [E|E].
  - exfalso. apply H. now left.
  - apply IH. intros Hin. apply H. now right.
Qed.

Lemma intervalsOf_unique (c : string) (out : list Series) (s : Series) :
  NoDup (map name out) -> In s out -> name s = c -> intervalsOf c out = data s.
Proof.
  unfold intervalsOf. induction out as [|h rest IH]; simpl; [contradiction|].
  intros Hnd [->|Hin] Hc; inversion Hnd as [|? ? Hh Hrest]; subst.
  - rewrite String.eqb_refl.
    fold (intervalsOf (name s) rest). rewrite intervalsOf_absent by assumption.
    apply app_nil_r.
  - destruct (String.eqb_spec (name h) (name s)) as [E|E].
    + exfalso. apply Hh. rewrite E. now apply in_map.
    + now apply IH.
Qed.

Lemma values_group_NoDup (names : list string) (fl : list (string * Point)) :
  NoDup (map name (Obj.values (group names fl))).
Proof.
  rewrite values_group_keys. unfold Obj.keys.
  eapply Permutation_NoDup.
  - symmetry. apply Permutation_map, ObjFacts.entries_perm.
  - rewrite group_keys. apply firstOccurrences_NoDup.
Qed.

Lemma values_group_names_In (names : list string) (fl : list (string * Point))
  (c : string) :
  In c (map name (Obj.values (group names fl))) <-> In c names.
Proof.
  rewrite values_group_keys. unfold Obj.keys.
  rewrite (Permutation_in' (eq_refl c)
             (Permutation_map fst (ObjFacts.entries_perm (group names fl)))).
  rewrite group_keys. apply firstOccurrences_In.
Qed.

Lemma intervalsOf_group (names : list string) (fl : list (string * Point)) (c : string) :
  (forall d p, In (d, p) fl -> In d names) ->
  intervalsOf c (Obj.values (group names fl)) = bucket c fl.
Proof.
  intros Hfl. destruct (in_dec string_dec c names) as [Hin|Hout].
  - rewrite (intervalsOf_unique c _ (mkSeries c (bucket c fl))); auto.
    + apply values_group_NoDup.
    + apply values_group_In. now exists c.
  - rewrite intervalsOf_absent by (now rewrite values_group_names_In).
    symmetry. apply bucket_absent. intros p Hp. apply Hout. eapply Hfl. eassumption.
Qed.

Section Host.
Variable getTime : string -> option Z.
Variable clock : nat -> Z.

#[local] Abbreviation reducer := (Timeline.reducer getTime clock).
#[local] Abbreviation chartData := (Timeline.chartData getTime clock).
#[local] Abbreviation endOf := (TimelineSpec.endOf getTime clock).
#[local] Abbreviation valid := (TimelineSpec.valid getTime clock).
#[local] Abbreviation pointOf := (TimelineSpec.pointOf getTime clock).
#[local] Abbreviation filed := (TimelineSpec.filed getTime clock).
#[local] Abbreviation warned := (TimelineSpec.warned getTime clock).
#[local] Abbreviation fatal := (TimelineMore.fatal getTime clock).
#[local] Abbreviation safe := (TimelineMore.safe getTime clock).

Lemma names_plain (batch : list GameData) (c : string) :
  In c (map category_name (filter plainName batch)) -> Obj.inherited c = false.
Proof.
  intros H. apply in_map_iff in H. destruct H as (g & <- & Hg).
  apply filter_In in Hg. destruct Hg as [_ Hg]. now apply negb_true_iff in Hg.
Qed.

Lemma filed_names_safe (colors : Obj.t string) (batch : list GameData) (k : nat)
  (d : string) (p : Point) :
  safe batch ->
  In (d, p) (filed colors k batch) ->
  In d (map category_name (filter plainName batch)).
Proof.
  intros Hsafe H.
  destruct (filed_In getTime clock _ _ _ _ _ H) as (g & k' & Hg & <- & Hpt).
  apply in_map, filter_In. split; [assumption|].
  unfold TimelineMore.safe in Hsafe. rewrite Forall_forall in Hsafe.
  specialize (Hsafe g Hg). unfold TimelineMore.fatal in Hsafe.
  rewrite (valid_pointOf getTime clock colors k' g), Hpt, andb_true_r in Hsafe.
  unfold plainName. now rewrite Hsafe.
Qed.

(** A step on an invalid record whose category names a member of
    [Object.prototype]: a diagnostic, and the accumulator as it was. *)
Lemma reducer_inherited_invalid (colors : Obj.t string) (names : list string)
  (fl : list (string * Point)) (g : GameData) (w : World) :
  Obj.inherited (category_name g) = true ->
  valid g = false ->
  (forall c, In c names -> Obj.inherited c = false) ->
  reducer colors (group names fl) g w
  = (Returned (group names fl),
     mkWorld (tick (ticks w) g) (console w ++ warned (ticks w) [g])).
Proof.
  intros Hinh Hinvalid Hnames. unfold Timeline.reducer, bind at 1.
  rewrite resolveEnd_run.
  assert (Hget : Obj.get (group names fl) (category_name g) = Obj.Inherited).
  { unfold Obj.get. rewrite getOwn_group, Hinh.
    destruct (mem (category_name g) names) eqn:E; [|reflexivity].
    apply mem_In, Hnames in E. congruence. }
  rewrite Hget.
  rewrite (valid_pointOf getTime clock colors (ticks w) g) in Hinvalid.
  unfold TimelineSpec.pointOf in Hinvalid. simpl warned.
  destruct (getTime (start_time g)), (endOf (ticks w) g); try discriminate;
    unfold bind, console_warn, ret; reflexivity.
Qed.

Lemma reduce_safe (colors : Obj.t string) (batch : list GameData) (w : World) :
  safe batch ->
  reduce (reducer colors) batch [] w
  = (Returned (group (map category_name (filter plainName batch))
                 (filed colors (ticks w) batch)),
     mkWorld (ticks w + readings batch) (console w ++ warned (ticks w) batch)).
Proof.
  induction batch as [|g batch IH] using rev_ind; intros Hsafe.
  - destruct w as [k log]. simpl. unfold ret, readings. simpl.
    now rewrite Nat.add_0_r, app_nil_r.
  - apply Forall_app in Hsafe. destruct Hsafe as [Hbatch Hg].
    inversion Hg as [|? ? Hfatal _]; subst.
    rewrite reduce_app, IH by assumption. simpl reduce. unfold bind.
    assert (Hticks : tick (ticks w + readings batch) g
                     = (ticks w + readings (batch ++ [g]))%nat).
    { rewrite readings_app.
      pose proof (readings_cons g [] (ticks w + readings batch)) as E.
      unfold readings at 2 in E. simpl in E. lia. }
    rewrite filter_app, map_app, filed_app, warned_app. simpl filter.
    unfold TimelineMore.fatal in Hfatal.
    assert (Hplain : plainName g = negb (Obj.inherited (category_name g)))
      by reflexivity.
    rewrite Hplain. clear Hplain.
    destruct (Obj.inherited (category_name g)) eqn:Hinh; simpl in Hfatal; simpl negb.
    + rewrite reducer_inherited_invalid;
        [|assumption|assumption|intros c; apply names_plain].
      unfold ret. cbn [ticks console]. rewrite Hticks, <- app_assoc.
      simpl map. rewrite app_nil_r.
      assert (Hnone : filed colors (ticks w + readings batch) [g] = []).
      { simpl. rewrite (valid_pointOf getTime clock colors (ticks w + readings batch) g)
          in Hfatal. now destruct (pointOf colors (ticks w + readings batch) g). }
      now rewrite Hnone, app_nil_r.
    + rewrite reducer_group;
        [|assumption|intros d p; now apply filed_names_safe].
      unfold ret. cbn [ticks console]. now rewrite Hticks, <- app_assoc.
Qed.

Lemma chartData_safe (colors : Obj.t string) (batch : list GameData) (w : World) :
  safe batch ->
  chartData batch colors w
  = (Returned (Obj.values (group (map category_name (filter plainName batch))
                             (filed colors (ticks w) batch))),
     mkWorld (ticks w + readings batch) (console w ++ warned (ticks w) batch)).
Proof.
  intros Hsafe. unfold Timeline.chartData, bind. now rewrite reduce_safe.
Qed.

(** A batch with a fatal record splits at the first one. *)
Lemma first_fatal (batch : list GameData) :
  existsb fatal batch = true ->
  exists pre g post, batch = pre ++ g :: post /\ safe pre /\ fatal g = true.
Proof.
  induction batch as [|h rest IH]; simpl; [discriminate|].
  destruct (fatal h) eqn:Hh; simpl.
  - intros _. exists [], h, rest. repeat split; [constructor | assumption].
  - intros H. destruct (IH H) as (pre & g & post & -> & Hpre & Hg).
    exists (h :: pre), g, post. repeat split; [now constructor | assumption].
Qed.

Lemma chartData_fatal (colors : Obj.t string) (pre post : list GameData)
  (g : GameData) (w : World) :
  safe pre -> fatal g = true ->
  fst (chartData (pre ++ g :: post) colors w) = TypeError.
Proof.
  intros Hsafe Hfatal. unfold TimelineMore.fatal in Hfatal.
  apply andb_true_iff in Hfatal. destruct Hfatal as [Hinh Hvalid].
  unfold Timeline.chartData, bind.
  rewrite reduce_app, reduce_safe by assumption.
  simpl reduce. unfold bind at 1. unfold Timeline.reducer at 1. unfold bind at 1.
  rewrite resolveEnd_run. cbn [ticks console].
  set (names := map category_name (filter plainName pre)).
  set (fl := filed colors (ticks w) pre).
  assert (Hget : Obj.get (group names fl) (category_name g) = Obj.Inherited).
  { unfold Obj.get. rewrite getOwn_group, Hinh.
    destruct (mem (category_name g) names) eqn:E; [|reflexivity].
    apply mem_In, names_plain in E. congruence. }
  rewrite Hget.
  rewrite (valid_pointOf getTime clock colors (ticks w + readings pre) g) in Hvalid.
  unfold TimelineSpec.pointOf in Hvalid.
  destruct (getTime (start_time g)); [|discriminate].
  destruct (endOf (ticks w + readings pre) g); [|discriminate].
  rewrite Hget. reflexivity.
Qed.

Lemma warned_instances (batch : list GameData) (k : nat) :
  map instanceOf (warned k batch)
  = map instance_name (filter (fun g => negb (valid g)) batch).
Proof.
  revert k. induction batch as [|g rest IH]; intros k; simpl; [reflexivity|].
  rewrite (valid_pointOf getTime clock [] k g). unfold TimelineSpec.pointOf.
  destruct (getTime (start_time g)), (endOf k g); simpl; now rewrite IH.
Qed.

(** *** Properties *)

(** X14: [chartData] throws exactly when the batch holds a valid record
    whose category is a property name of [Object.prototype]; an invalid
    record of such a category is harmless. *)
Theorem chartData_throws_iff
  (colors : Obj.t string) (batch : list GameData) (w : World) :
  fst (chartData batch colors w) = TypeError
  <-> exists g, In g batch
                /\ Obj.inherited (category_name g) = true
                /\ valid g = true.
Proof.
  destruct (existsb fatal batch) eqn:E.
  - destruct (first_fatal batch E) as (pre & g & post & -> & Hpre & Hg).
    split.
    + intros _. exists g. unfold TimelineMore.fatal in Hg.
      apply andb_true_iff in Hg. split; [|exact Hg].
      apply in_or_app. right. now left.
    + intros _. now apply chartData_fatal.
  - assert (Hsafe : safe batch).
    { apply Forall_forall. intros g Hg.
      destruct (fatal g) eqn:F; [|reflexivity].
      assert (existsb fatal batch = true) by (apply existsb_exists; eauto).
      congruence. }
    split.
    + rewrite chartData_safe by assumption. discriminate.
    + intros (g & Hg & Hinh & Hvalid).
      unfold TimelineMore.safe in Hsafe. rewrite Forall_forall in Hsafe.
      specialize (Hsafe g Hg). unfold TimelineMore.fatal in Hsafe.
      rewrite Hinh, Hvalid in Hsafe. discriminate.
Qed.

(** X15: when no record is fatal, [chartData] returns, keeps what the
    console held, adds one diagnostic per invalid record, naming the
    instances in batch order, and reads the clock once per record whose
    end is [null] or empty, valid or not. *)
Theorem chartData_diagnostics
  (colors : Obj.t string) (batch : list GameData) (w : World) :
  safe batch ->
  exists out w' logged,
    chartData batch colors w = (Returned out, w')
    /\ console w' = console w ++ logged
    /\ map instanceOf logged
       = map instance_name (filter (fun g => negb (valid g)) batch)
    /\ ticks w' = (ticks w + List.length (filter ongoing batch))%nat.
Proof.
  intros Hsafe. eexists _, _, (warned (ticks w) batch).
  split; [now apply chartData_safe|].
  split; [reflexivity|]. split; [apply warned_instances | reflexivity].
Qed.

(** X16: when no record is fatal, the output has one series per
    category of the batch that is not a property name of
    [Object.prototype], and no two series share a name. *)
Theorem chartData_one_series_per_category
  (colors : Obj.t string) (batch : list GameData) (w : World) :
  safe batch ->
  exists out w',
    chartData batch colors w = (Returned out, w')
    /\ NoDup (map name out)
    /\ (forall c, In c (map name out)
                  <-> Obj.inherited c = false /\ In c (map category_name batch)).
Proof.
  intros Hsafe. eexists _, _. split; [now apply chartData_safe|].
  split; [apply values_group_NoDup|].
  intros c. rewrite values_group_names_In, !in_map_iff. split.
  - intros (g & <- & Hg). apply filter_In in Hg. destruct Hg as [Hg Hp].
    split; [now apply negb_true_iff in Hp | now exists g].
  - intros (Hinh & g & <- & Hg). exists g. split; [reflexivity|].
    apply filter_In. split; [assumption|]. unfold plainName. now rewrite Hinh.
Qed.

(** X17: a batch may be processed in two parts: when no record of
    [first ++ second] is fatal, the intervals of every category in the
    output for the whole batch are those for [first] followed by those
    for [second] processed next, and the host ends in the same state. *)
Theorem chartData_append
  (colors : Obj.t string) (first second : list GameData) (w : World) :
  safe (first ++ second) ->
  exists out1 w1 out2 w2 out,
    chartData first colors w = (Returned out1, w1)
    /\ chartData second colors w1 = (Returned out2, w2)
    /\ chartData (first ++ second) colors w = (Returned out, w2)
    /\ forall c, intervalsOf c out = intervalsOf c out1 ++ intervalsOf c out2.
Proof.
  intros Hsafe. pose proof Hsafe as Hboth.
  apply Forall_app in Hboth. destruct Hboth as [H1 H2].
  eexists _, _, _, _, _.
  split; [now apply chartData_safe|].
  split; [now apply chartData_safe|].
  split.
  { rewrite chartData_safe by assumption. cbn [ticks console].
    now rewrite readings_app, warned_app, Nat.add_assoc, app_assoc. }
  intros c. cbn [ticks].
  rewrite !intervalsOf_group by (intros d p; now apply filed_names_safe).
  now rewrite filed_app, bucket_app.
Qed.


End Host.

End TimelineMoreFacts.

(* ================================================================= *)
(** ** The further properties at work *)

Module MoreExamples.
Import Sample MoreSample.

#[local] Abbreviation generateChartSeries :=
  (Weekly.generateChartSeries Calendar.utcTime Calendar.utcZone).
#[local] Abbreviation fallsOn := (WeeklyCount.fallsOn Calendar.utcTime Calendar.utcZone).
#[local] Abbreviation chartData := (Timeline.chartData Calendar.utcTime clockAt).
#[local] Abbreviation valid := (TimelineSpec.valid Calendar.utcTime clockAt).
#[local] Abbreviation safe := (TimelineMore.safe Calendar.utcTime clockAt).

Lemma safe_sample : safe [wednesday; hidden; ghost; sunday].
Proof. repeat constructor. Qed.

Lemma brighten_is_six_fifths_witness :
  0 <= 65 < 256 /\ Color.brighten 65 = Z.min 255 (6 * 65 / 5).
Proof.
  assert (H : 0 <= 65 < 256) by lia.
  split; [exact H|].
  exact (proj2 (ColorMore.brighten_is_six_fifths 65 H)).
Defined.

Lemma brighten_bounds_witness :
  0 <= 100 <= 240 /\ 240 < 256
  /\ 100 <= Color.brighten 100 <= 255
  /\ Color.brighten 100 <= Color.brighten 240.
Proof.
  assert (Ha : 0 <= 100 <= 240) by lia.
  assert (Hb : 240 < 256) by lia.
  split; [exact Ha|]. split; [exact Hb|].
  destruct (ColorMore.brighten_bounds 100 240 Ha Hb) as (H1 & H2 & _).
  split; [exact H1 | exact H2].
Defined.


Lemma generateChartSeries_slot_counts_witness :
  In (Weekly.mkSeries "Combat" (Weekly.mkCounts [0; 0; 1; 0; 0; 0; 1] true))
    (generateChartSeries listed [wednesday; garbled; sunday])
  /\ WeeklyCount.slot
       (Weekly.mkSeries "Combat" (Weekly.mkCounts [0; 0; 1; 0; 0; 0; 1] true)) 6
     = Z.of_nat (List.length (filter (fallsOn "Combat" 6) [wednesday; garbled; sunday])).
Proof.
  assert (H : In (Weekly.mkSeries "Combat" (Weekly.mkCounts [0; 0; 1; 0; 0; 0; 1] true))
                (generateChartSeries listed [wednesday; garbled; sunday]))
    by (left; reflexivity).
  split; [exact H|].
  destruct (WeeklyMore.generateChartSeries_slot_counts
              Calendar.utcTime Calendar.utcZone listed
              [wednesday; garbled; sunday] _ H) as (_ & _ & Hslots).
  apply (Hslots 6%nat). lia.
Defined.

Lemma generateChartSeries_permutation_witness :
  Permutation [wednesday; chess; sunday] [chess; wednesday; sunday]
  /\ generateChartSeries listed [wednesday; chess; sunday]
     = generateChartSeries listed [chess; wednesday; sunday].
Proof.
  assert (H : Permutation [wednesday; chess; sunday] [chess; wednesday; sunday])
    by apply perm_swap.
  split; [exact H|].
  exact (WeeklyMore.generateChartSeries_permutation
           Calendar.utcTime Calendar.utcZone listed _ _ H).
Defined.

Lemma chartData_diagnostics_witness :
  safe [wednesday; hidden; ghost; sunday]
  /\ exists out w' logged,
       chartData [wednesday; hidden; ghost; sunday] [] fresh
       = (Timeline.Returned out, w')
       /\ Timeline.console w' = Timeline.console fresh ++ logged
       /\ map TimelineMore.instanceOf logged = ["lab-2"; "crypt-1"]
       /\ Timeline.ticks w' = 3%nat.
Proof.
  split; [exact safe_sample|].
  destruct (TimelineMoreFacts.chartData_diagnostics
              Calendar.utcTime clockAt [] _ fresh safe_sample)
    as (out & w' & logged & Hrun & Hlog & Hnames & Hticks).
  exists out, w', logged. repeat split; assumption.
Defined.

Lemma chartData_one_series_per_category_witness :
  safe [wednesday; hidden; ghost; sunday]
  /\ exists out w',
       chartData [wednesday; hidden; ghost; sunday] [] fresh
       = (Timeline.Returned out, w')
       /\ NoDup (map Timeline.name out)
       /\ ~ In "toString" (map Timeline.name out).
Proof.
  split; [exact safe_sample|].
  destruct (TimelineMoreFacts.chartData_one_series_per_category
              Calendar.utcTime clockAt [] _ fresh safe_sample)
    as (out & w' & Hrun & Hnd & Hnames).
  exists out, w'. split; [exact Hrun|]. split; [exact Hnd|].
  intros Hin. apply Hnames in Hin. destruct Hin as [Hinh _]. discriminate Hinh.
Defined.

Lemma chartData_append_witness :
  safe ([wednesday; hidden] ++ [ghost; sunday])
  /\ exists out1 w1 out2 w2 out,
       chartData [wednesday; hidden] [] fresh = (Timeline.Returned out1, w1)
       /\ chartData [ghost; sunday] [] w1 = (Timeline.Returned out2, w2)
       /\ chartData ([wednesday; hidden] ++ [ghost; sunday]) [] fresh
          = (Timeline.Returned out, w2)
       /\ TimelineMore.intervalsOf "Combat" out
          = TimelineMore.intervalsOf "Combat" out1
            ++ TimelineMore.intervalsOf "Combat" out2.
Proof.
  split; [exact safe_sample|].
  destruct (TimelineMoreFacts.chartData_append
              Calendar.utcTime clockAt [] [wednesday; hidden] [ghost; sunday]
              fresh safe_sample)
    as (out1 & w1 & out2 & w2 & out & H1 & H2 & H & Hcat).
  exists out1, w1, out2, w2, out. repeat split; auto.
Defined.


Lemma hash_stays_exact_witness :
  Forall (fun c => 0 <= c < 65536) (JS.charCodes "Combat")
  /\ Z.of_nat (List.length (JS.charCodes "Combat")) < 4000000
  /\ Z.abs (Color.hashOf (firstn 6 (JS.charCodes "Combat"))) < 2 ^ 53.
Proof.
  assert (Hc : Forall (fun c => 0 <= c < 65536) (JS.charCodes "Combat")).
  { repeat constructor; simpl; lia. }
  assert (Hl : Z.of_nat (List.length (JS.charCodes "Combat")) < 4000000)
    by (simpl; lia).
  split; [exact Hc|]. split; [exact Hl|].
  exact (ColorMore.hash_stays_exact (JS.charCodes "Combat") 6 Hc Hl).
Defined.

End MoreExamples.
